(** * zkChan backend: the Express proxy of [src/server.js]

    A shallow embedding of the service: JavaScript values as an inductive
    type, thrown errors as an explicit completion, the outbound [fetch] as an
    oracle whose calls are recorded, the zod schemas as a small schema
    language with its parser, the Express middleware chain as a function from
    a request (and the rate limiter's store) to a response.

    Strings are sequences of code units; the development uses the standard
    [string] type, one [ascii] per code unit. *)

From Stdlib Require Import ZArith List Bool Ascii String Lia.
From stdpp Require Import base option list strings gmap.
Import ListNotations.

Local Open Scope string_scope.
Local Open Scope Z_scope.
Set Warnings "-register-all".

(** ** JavaScript values *)

(** A JavaScript number as [JSON.parse] can produce it: an integral double,
    a finite double with a fractional part, or an infinity (from a literal
    such as 1e999). [-0] is [Int 0]: it is falsy and prints as 0. *)
Inductive number :=
| Int (z : Z)
| Frac (m e : Z)            (* m * 2^e, with e < 0 and m odd *)
| Infinite (negative : bool).

(** Values: what [JSON.parse] returns, plus [undefined], which property
    reads and object literals of the handlers introduce. An object keeps its
    properties in insertion order; a read takes the first entry of a key. *)
Inductive jsval :=
| VUndef
| VNull
| VBool (b : bool)
| VNum (n : number)
| VStr (s : string)
| VArr (items : list jsval)
| VObj (props : list (string * jsval)).

(** An [Error] object: its [name] and [message] properties. *)
Record js_error := mk_error { err_name : string; err_message : string }.

(** Abrupt or normal completion of an expression. *)
Inductive completion (A : Type) :=
| Normal (a : A)
| Throw (e : js_error).
Arguments Normal {A} a.
Arguments Throw {A} e.

Definition cbind {A B} (c : completion A) (k : A -> completion B) : completion B :=
  match c with
  | Normal a => k a
  | Throw e => Throw e
  end.

(** ** Association lists of properties *)

Fixpoint lookup_prop (k : string) (props : list (string * jsval)) : option jsval :=
  match props with
  | [] => None
  | (k', v) :: rest => if String.eqb k k' then Some v else lookup_prop k rest
  end.

Definition has_own (k : string) (props : list (string * jsval)) : bool :=
  match lookup_prop k props with Some _ => true | None => false end.

Definition keys (props : list (string * jsval)) : list string := map fst props.

(** ** zod issues *)

Inductive issue_code := invalid_type | too_small | too_big | invalid_string.

Record ZodIssue := mk_issue { issue_path : list string; issue_kind : issue_code }.

(** The faults the engine itself raises as a [TypeError]. *)
Inductive fault :=
| ReadOfNullish (target : jsval) (key : string)   (* Cannot read properties of null/undefined *)
| NotAFunction (callee : string)              (* x.f is not a function *)
| NotPrimitive.                               (* Cannot convert object to primitive value *)

(** ** What the engine and the libraries render

    The texts below are produced by code outside the repository (V8's
    number printing and [TypeError] messages, zod's [ZodError.message], the
    [AbortError] of an aborted [fetch]). They are taken as an interface; two
    facts about them are used: integers below 10^21 print in plain decimal,
    and a [ZodError] message (the JSON text of the issue array) is never
    empty. *)

Definition digit_char (d : Z) : ascii := ascii_of_nat (48 + Z.to_nat d).

Fixpoint decimal_pos (fuel : nat) (z : Z) (acc : string) : string :=
  match fuel with
  | O => acc
  | S fuel' =>
      let acc' := String (digit_char (z mod 10)) acc in
      if z <? 10 then acc' else decimal_pos fuel' (z / 10) acc'
  end.

(** Plain decimal notation of an integer. *)
Definition decimal (z : Z) : string :=
  if z <? 0
  then String "-" (decimal_pos (S (Z.to_nat (Z.log2 (- z)))) (- z) "")
  else decimal_pos (S (Z.to_nat (Z.log2 z))) z "".

Class Runtime := {
  Number_toString : number -> string;
  Number_toString_int :
    forall z, Z.abs z < 10 ^ 21 -> Number_toString (Int z) = decimal z;
  ZodError_message : list ZodIssue -> string;
  ZodError_message_nonempty : forall issues, ZodError_message issues <> "";
  TypeError_message : fault -> string;
  AbortError_message : string;
  Date_toISOString : Z -> string
}.

Section Service.
Context `{RT : Runtime}.

(** ** Conversions of the language *)

Definition TypeError (f : fault) : js_error :=
  {| err_name := "TypeError"; err_message := TypeError_message f |}.

(** [ToString]. A plain object prints through [Object.prototype.toString]
    unless an own [toString] property (never callable in parsed JSON) hides
    it, in which case the conversion throws. An array prints through
    [join]: elements separated by commas, [null] and [undefined] empty. *)
Fixpoint ToString (v : jsval) : completion string :=
  match v with
  | VUndef => Normal "undefined"
  | VNull => Normal "null"
  | VBool true => Normal "true"
  | VBool false => Normal "false"
  | VNum n => Normal (Number_toString n)
  | VStr s => Normal s
  | VObj props =>
      if has_own "toString" props then Throw (TypeError NotPrimitive)
      else Normal "[object Object]"
  | VArr items =>
      let element x :=
        match x with
        | VUndef | VNull => Normal ""
        | _ => ToString x
        end in
      (fix join (l : list jsval) : completion string :=
         match l with
         | [] => Normal ""
         | [x] => element x
         | x :: rest =>
             cbind (element x) (fun sx =>
             cbind (join rest) (fun sr => Normal (sx ++ "," ++ sr)))
         end) items
  end.

(** [ToBoolean]: what [!v], [v || w] and [filter(Boolean)] test. *)
Definition truthy (v : jsval) : bool :=
  match v with
  | VUndef | VNull => false
  | VBool b => b
  | VNum (Int 0) => false
  | VNum _ => true
  | VStr "" => false
  | VStr _ => true
  | VArr _ | VObj _ => true
  end.

(** [a || b] on already evaluated operands. *)
Definition js_or (a b : jsval) : jsval := if truthy a then a else b.

(** [v.key], for the property names the service reads ([error],
    [swapTransaction], [address], [symbol], [name], [decimals], [tags] and
    the keys of the schemas): none is defined on a built-in prototype, so
    the read finds an own property of an object or nothing. *)
Definition get (v : jsval) (key : string) : completion jsval :=
  match v with
  | VUndef | VNull => Throw (TypeError (ReadOfNullish v key))
  | VObj props => Normal (default VUndef (lookup_prop key props))
  | _ => Normal VUndef
  end.

(** [v?.key] *)
Definition get_opt (v : jsval) (key : string) : completion jsval :=
  match v with
  | VUndef | VNull => Normal VUndef
  | _ => get v key
  end.

(** [Error.prototype.toString], which [String(err)] calls. *)
Definition Error_toString (e : js_error) : string :=
  if String.eqb (err_name e) "" then err_message e
  else if String.eqb (err_message e) "" then err_name e
  else err_name e ++ ": " ++ err_message e.

(** [String(err.message || err)], the text every handler reports. *)
Definition error_text (e : js_error) : string :=
  if String.eqb (err_message e) "" then Error_toString e else err_message e.

(** [new Error(m)] with [m] not [undefined]: the message is [ToString m]. *)
Definition new_Error (m : jsval) : completion js_error :=
  cbind (ToString m) (fun s => Normal {| err_name := "Error"; err_message := s |}).

Definition ZodError (issues : list ZodIssue) : js_error :=
  {| err_name := "ZodError"; err_message := ZodError_message issues |}.

Definition AbortError : js_error :=
  {| err_name := "AbortError"; err_message := AbortError_message |}.

(** ** zod: the schema language of [QuoteBody] and [SwapBody]

    The constructors are the builders the source calls; [zparse] follows
    zod's [_parse] methods: a type test first, then every check of the
    schema, each failure adding an issue; an object parses every key of its
    shape and drops unknown keys. A parse is valid when no issue was
    recorded. *)

Inductive string_check :=
| min_length (n : nat)                     (* .min(n) *)
| regex (source : string) (test : string -> bool).   (* .regex(re) *)

Inductive number_check :=
| int                                      (* .int() *)
| min (bound : Z)                          (* .min(b), inclusive *)
| max (bound : Z).                         (* .max(b), inclusive *)

Inductive zschema :=
| z_string (checks : list string_check)
| z_number (checks : list number_check)
| z_boolean
| z_any
| z_record (value : zschema)
| z_optional (inner : zschema)
| z_default (inner : zschema) (value : jsval)
| z_object (shape : list (string * zschema)).

Definition is_digit (c : ascii) : bool :=
  let n := Z.of_nat (nat_of_ascii c) in (48 <=? n) && (n <=? 57).

Fixpoint all_digits (s : string) : bool :=
  match s with
  | EmptyString => true
  | String c rest => is_digit c && all_digits rest
  end.

(** [/^\d+$/.test(s)]: one or more ASCII digits and nothing else (no [m]
    flag, so [$] is the end of the string). *)
Definition re_digits (s : string) : bool :=
  match s with
  | EmptyString => false
  | _ => all_digits s
  end.

(** [n < k] and [n > k] for a number and an integer bound. *)
Definition num_ltb (n : number) (k : Z) : bool :=
  match n with
  | Int z => z <? k
  | Frac m e => m <? k * 2 ^ (- e)
  | Infinite negative => negative
  end.

Definition num_gtb (n : number) (k : Z) : bool :=
  match n with
  | Int z => k <? z
  | Frac m e => k * 2 ^ (- e) <? m
  | Infinite negative => negb negative
  end.

Definition is_integer (n : number) : bool :=
  match n with Int _ => true | _ => false end.

Definition string_issue (path : list string) (s : string) (c : string_check)
  : list ZodIssue :=
  match c with
  | min_length n =>
      if (String.length s <? n)%nat then [mk_issue path too_small] else []
  | regex _ test =>
      if test s then [] else [mk_issue path invalid_string]
  end.

Definition number_issue (path : list string) (n : number) (c : number_check)
  : list ZodIssue :=
  match c with
  | int => if is_integer n then [] else [mk_issue path invalid_type]
  | min b => if num_ltb n b then [mk_issue path too_small] else []
  | max b => if num_gtb n b then [mk_issue path too_big] else []
  end.

(** Neither an object nor a record schema writes an own key named
    [__proto__] into its result. *)
Definition without_proto (props : list (string * jsval)) : list (string * jsval) :=
  List.filter (fun kv => negb (String.eqb (fst kv) "__proto__")) props.

(** The parsed value and the issues recorded; the value is meaningful when
    there is no issue. *)
Fixpoint zparse (s : zschema) (path : list string) (v : jsval)
  : jsval * list ZodIssue :=
  match s with
  | z_string checks =>
      match v with
      | VStr str => (v, concat (map (string_issue path str) checks))
      | _ => (VUndef, [mk_issue path invalid_type])
      end
  | z_number checks =>
      match v with
      | VNum n => (v, concat (map (number_issue path n) checks))
      | _ => (VUndef, [mk_issue path invalid_type])
      end
  | z_boolean =>
      match v with
      | VBool _ => (v, [])
      | _ => (VUndef, [mk_issue path invalid_type])
      end
  | z_any => (v, [])
  | z_optional inner =>
      match v with
      | VUndef => (VUndef, [])
      | _ => zparse inner path v
      end
  | z_default inner d =>
      match v with
      | VUndef => zparse inner path d
      | _ => zparse inner path v
      end
  | z_record value =>
      match v with
      | VObj props =>
          let '(out, issues) :=
            (fix entries (l : list (string * jsval)) :=
               match l with
               | [] => ([], [])
               | (k, x) :: rest =>
                   let '(x', ix) := zparse value (path ++ [k])%list x in
                   let '(out, irest) := entries rest in
                   ((k, x') :: out, (ix ++ irest)%list)
               end) props in
          (VObj (without_proto out), issues)
      | _ => (VUndef, [mk_issue path invalid_type])
      end
  | z_object shape =>
      match v with
      | VObj props =>
          let '(out, issues) :=
            (fix fields (l : list (string * zschema)) :=
               match l with
               | [] => ([], [])
               | (k, sk) :: rest =>
                   let '(x', ix) :=
                     zparse sk (path ++ [k])%list (default VUndef (lookup_prop k props)) in
                   let '(out, irest) := fields rest in
                   let keep :=
                     match x' with VUndef => has_own k props | _ => true end in
                   (((if keep then [(k, x')] else []) ++ out)%list, (ix ++ irest)%list)
               end) shape in
          (VObj (without_proto out), issues)
      | _ => (VUndef, [mk_issue path invalid_type])
      end
  end.

(** [schema.parse(v)]: the data, or a thrown [ZodError] carrying the issues. *)
Definition Zod_parse (s : zschema) (v : jsval) : completion jsval :=
  match zparse s [] v with
  | (data, []) => Normal data
  | (_, issues) => Throw (ZodError issues)
  end.

Definition QuoteBody : zschema :=
  z_object
    [ ("inputMint", z_string [min_length 8]);
      ("outputMint", z_string [min_length 8]);
      ("amount", z_string [regex "^\d+$" re_digits]);
      ("slippageBps", z_default (z_number [int; min 1; max 1000]) (VNum (Int 50)));
      ("onlyDirectRoutes", z_default (z_optional z_boolean) (VBool false)) ].

Definition SwapBody : zschema :=
  z_object
    [ ("userPublicKey", z_string [min_length 32]);
      ("quoteResponse", z_record z_any);
      ("wrapAndUnwrapSol", z_default (z_optional z_boolean) (VBool true));
      ("useSharedAccounts", z_default (z_optional z_boolean) (VBool true));
      ("dynamicComputeUnitLimit", z_default (z_optional z_boolean) (VBool true));
      ("prioritizationFeeLamports",
        z_default (z_optional (z_number [int; min 0])) (VNum (Int 0))) ].

(** ** Responses *)

Inductive reply :=
| Json (v : jsval)            (* res.json(v) *)
| Text (s : string)           (* res.send(s) *)
| Empty                       (* res.end() *)
| FinalHandlerPage (verb path : string).
                              (* the HTML page Express itself sends when no route
                                 matched; its text is Cannot <verb> <path> *)

Record response := { status : Z; body : reply }.

Definition failure (code : Z) (message : string) : response :=
  {| status := code;
     body := Json (VObj [("ok", VBool false); ("error", VStr message)]) |}.

(** The keys [JSON.stringify] writes for an object: a property whose value
    is [undefined] is left out. *)
Definition is_defined (v : jsval) : bool :=
  match v with VUndef => false | _ => true end.

Definition serialized_keys (v : jsval) : list string :=
  match v with
  | VObj props => keys (List.filter (fun kv => is_defined (snd kv)) props)
  | _ => []
  end.

(** ** Outbound calls and the task monad

    A handler is an asynchronous function whose only suspension point is
    the outbound [fetch]. It is modelled as a computation that consults the
    upstream (what the network answers to a call), may throw, and records
    the calls it issues, in order. *)

Record RequestInit := {
  init_method : string;
  init_headers : list (string * string);
  init_body : jsval            (* the argument of [JSON.stringify] *)
}.

(** The URL is kept as its fixed part and the [URLSearchParams] entries
    that are appended to it after a question mark. *)
Record OutboundCall := {
  call_url : string;
  call_params : list (string * string);
  call_init : option RequestInit
}.

Inductive fetch_outcome :=
| Rejects (e : js_error)      (* network failure: [fetch] rejects with [e] *)
| TimesOut                    (* the timer of FETCH_TIMEOUT_MS fires first and aborts *)
| Responds (status : Z) (json : option jsval).
                              (* a response; [r.json()] yields a value or rejects *)

Definition Upstream := OutboundCall -> fetch_outcome.

Definition Task (A : Type) : Type := Upstream -> completion A * list OutboundCall.

Definition ret {A} (a : A) : Task A := fun _ => (Normal a, []).

Definition lift {A} (c : completion A) : Task A := fun _ => (c, []).

Definition throw {A} (e : js_error) : Task A := lift (Throw e).

Definition bind {A B} (m : Task A) (k : A -> Task B) : Task B :=
  fun up =>
    match m up with
    | (Normal a, t) => let '(r, t') := k a up in (r, (t ++ t')%list)
    | (Throw e, t) => (Throw e, t)
    end.

(** A route handler: its whole body is [try { m } catch (err) { h err }]
    with a [catch] block that only writes a response, so it always answers. *)
Definition Handler : Type := Upstream -> response * list OutboundCall.

Definition try_catch (m : Task response) (h : js_error -> response) : Handler :=
  fun up =>
    match m up with
    | (Normal a, t) => (a, t)
    | (Throw e, t) => (h e, t)
    end.

Notation "x <- m ;; k" := (bind m (fun x => k))
  (at level 100, m at next level, right associativity).

(** [await fetch(url, { ...init, signal })]: the status and the outcome of
    [r.json()] of the response, or the rejection. *)
Definition fetch (call : OutboundCall) : Task (Z * option jsval) :=
  fun up =>
    (match up call with
     | Rejects e => Throw e
     | TimesOut => Throw AbortError
     | Responds status json => Normal (status, json)
     end, [call]).

(** [r.ok] *)
Definition ok (status : Z) : bool := (200 <=? status) && (status <=? 299).

Definition fetchJSON (call : OutboundCall) : Task jsval :=
  r <- fetch call ;;
  let js := default (VObj []) (snd r) in                  (* r.json().catch(() => ({})) *)
  if negb (ok (fst r)) then
    field <- lift (get_opt js "error") ;;
    err <- lift (new_Error
             (js_or field (VStr ("Fetch failed: " ++ Number_toString (Int (fst r)))))) ;;
    throw err
  else ret js.

(** ** Configuration and route handlers *)

Record Config := {
  APP_NAME : string;
  JUPITER_BASE : string;
  allowedOrigins : list string
}.

(** [process.env]: the variables the service reads that bear on its
    answers. PORT and LOG_FORMAT concern listening and logging, and
    FETCH_TIMEOUT_MS decides when an upstream call counts as timed out,
    which the upstream oracle reports as [TimesOut]. *)
Record Env := {
  env_APP_NAME : option string;
  env_JUPITER_BASE : option string;
  env_CORS_ORIGINS : option string
}.

(** [process.env.X || fallback] *)
Definition env_or (x : option string) (fallback : string) : string :=
  match x with
  | Some (String c rest) => String c rest
  | _ => fallback
  end.

(** [s.split(",")] *)
Fixpoint split_comma (s : string) : list string :=
  match s with
  | EmptyString => [EmptyString]
  | String c rest =>
      if Ascii.eqb c "," then EmptyString :: split_comma rest
      else match split_comma rest with
           | first :: others => String c first :: others
           | [] => [String c EmptyString]
           end
  end.

(** White space of [trim] among 8-bit code units. *)
Definition is_space (c : ascii) : bool :=
  let n := nat_of_ascii c in
  ((9 <=? n) && (n <=? 13) || (n =? 32) || (n =? 160))%nat.

Fixpoint trim_start (s : string) : string :=
  match s with
  | String c rest => if is_space c then trim_start rest else s
  | EmptyString => EmptyString
  end.

Fixpoint trim_end (s : string) : string :=
  match s with
  | EmptyString => EmptyString
  | String c rest =>
      match trim_end rest with
      | EmptyString => if is_space c then EmptyString else String c EmptyString
      | rest' => String c rest'
      end
  end.

Definition trim (s : string) : string := trim_end (trim_start s).

Definition non_empty (s : string) : bool :=
  match s with EmptyString => false | _ => true end.

Definition load_config (env : Env) : Config :=
  let envOrigins :=
    List.filter non_empty (map trim (split_comma (env_or (env_CORS_ORIGINS env) ""))) in
  {| APP_NAME := env_or (env_APP_NAME env) "zkChan Backend";
     JUPITER_BASE := env_or (env_JUPITER_BASE env) "https://quote-api.jup.ag";
     allowedOrigins :=
       match envOrigins with [] => ["https://zk-chan.fun"] | _ => envOrigins end |}.

Variable cfg : Config.

Fixpoint map_completion {A B} (f : A -> completion B) (l : list A)
  : completion (list B) :=
  match l with
  | [] => Normal []
  | x :: rest =>
      cbind (f x) (fun y =>
      cbind (map_completion f rest) (fun ys => Normal (y :: ys)))
  end.

(** [list.map(f)]: only an array has a callable [map]. *)
Definition array_map (list : jsval) (f : jsval -> completion jsval)
  : completion jsval :=
  match list with
  | VArr items => cbind (map_completion f items) (fun l => Normal (VArr l))
  | VUndef | VNull => Throw (TypeError (ReadOfNullish list "map"))
  | _ => Throw (TypeError (NotAFunction "list.map"))
  end.

(** The arrow function of [/api/tokens]:
    [t => ({ address: t.address, ..., tags: t.tags || [] })]. *)
Definition project_token (t : jsval) : completion jsval :=
  cbind (get t "address") (fun address =>
  cbind (get t "symbol") (fun symbol =>
  cbind (get t "name") (fun name =>
  cbind (get t "decimals") (fun decimals =>
  cbind (get t "tags") (fun tags =>
  Normal (VObj [ ("address", address); ("symbol", symbol); ("name", name);
                 ("decimals", decimals); ("tags", js_or tags (VArr [])) ])))))).

Definition tokens_call : OutboundCall :=
  {| call_url := "https://token.jup.ag/all"; call_params := []; call_init := None |}.

Definition tokens_try : Task response :=
  list <- fetchJSON tokens_call ;;
  small <- lift (array_map list project_token) ;;
  ret {| status := 200;
         body := Json (VObj [("ok", VBool true); ("tokens", small)]) |}.

Definition get_api_tokens : Handler :=
  try_catch tokens_try (fun err => failure 500 (error_text err)).

Definition quote_call (inputMint outputMint amount slippageBps onlyDirectRoutes : string)
  : OutboundCall :=
  {| call_url := JUPITER_BASE cfg ++ "/v6/quote";
     call_params := [ ("inputMint", inputMint); ("outputMint", outputMint);
                      ("amount", amount); ("slippageBps", slippageBps);
                      ("onlyDirectRoutes", onlyDirectRoutes) ];
     call_init := None |}.

(** [data.key] converted to a string, as [URLSearchParams] and [String] do. *)
Definition field_text (data : jsval) (key : string) : completion string :=
  cbind (get data key) ToString.

Definition quote_try (req_body : jsval) : Task response :=
  data <- lift (Zod_parse QuoteBody req_body) ;;
  inputMint <- lift (field_text data "inputMint") ;;
  outputMint <- lift (field_text data "outputMint") ;;
  amount <- lift (field_text data "amount") ;;
  slippageBps <- lift (field_text data "slippageBps") ;;
  direct <- lift (get data "onlyDirectRoutes") ;;
  let onlyDirectRoutes := if truthy direct then "true" else "false" in
  quote <- fetchJSON (quote_call inputMint outputMint amount slippageBps onlyDirectRoutes) ;;
  ret {| status := 200;
         body := Json (VObj [("ok", VBool true); ("quote", quote)]) |}.

Definition post_api_quote (req_body : jsval) : Handler :=
  try_catch (quote_try req_body) (fun err => failure 400 (error_text err)).

Definition swap_call (payload : jsval) : OutboundCall :=
  {| call_url := JUPITER_BASE cfg ++ "/v6/swap";
     call_params := [];
     call_init := Some {| init_method := "POST";
                          init_headers := [("Content-Type", "application/json")];
                          init_body := payload |} |}.

Definition swap_try (req_body : jsval) : Task response :=
  data <- lift (Zod_parse SwapBody req_body) ;;
  quoteResponse <- lift (get data "quoteResponse") ;;
  userPublicKey <- lift (get data "userPublicKey") ;;
  wrapAndUnwrapSol <- lift (get data "wrapAndUnwrapSol") ;;
  dynamicComputeUnitLimit <- lift (get data "dynamicComputeUnitLimit") ;;
  prioritizationFeeLamports <- lift (get data "prioritizationFeeLamports") ;;
  useSharedAccounts <- lift (get data "useSharedAccounts") ;;
  let payload :=
    VObj [ ("quoteResponse", quoteResponse);
           ("userPublicKey", userPublicKey);
           ("wrapAndUnwrapSol", wrapAndUnwrapSol);
           ("dynamicComputeUnitLimit", dynamicComputeUnitLimit);
           ("prioritizationFeeLamports", prioritizationFeeLamports);
           ("useSharedAccounts", useSharedAccounts) ] in
  js <- fetchJSON (swap_call payload) ;;
  swapTransaction <- lift (get js "swapTransaction") ;;
  ret {| status := 200;
         body := Json (VObj [("ok", VBool true); ("swapTransaction", swapTransaction)]) |}.

Definition post_api_swap (req_body : jsval) : Handler :=
  try_catch (swap_try req_body) (fun err => failure 400 (error_text err)).

(** ** The application: middleware chain, routes, error middleware *)

Inductive method := GET | HEAD | POST | OPTIONS | OtherMethod (name : string).

(** An incoming request, as the chain sees it. [req_body] is what
    [express.json({limit: "1mb"})] leaves in [req.body], or the error it
    passes on (malformed JSON, body over the limit). [req_ip] is the
    client key of the rate limiter and [req_time] the arrival time in
    milliseconds. *)
Record request := {
  req_method : method;
  req_path : string;
  req_origin : option string;
  req_ip : string;
  req_time : Z;
  req_body : completion jsval
}.

Definition lower_char (c : ascii) : ascii :=
  let n := nat_of_ascii c in
  if ((65 <=? n) && (n <=? 90))%nat then ascii_of_nat (n + 32) else c.

Fixpoint lower (s : string) : string :=
  match s with
  | EmptyString => EmptyString
  | String c rest => String (lower_char c) (lower rest)
  end.

(** [pattern] registered with [app.get] or [app.post]: Express matches the
    path without regard to case and lets one trailing slash pass after a
    pattern that does not end in one. *)
Definition route_matches (pattern path : string) : bool :=
  let p := lower path in
  String.eqb p pattern ||
  (negb (String.eqb pattern "/") && String.eqb p (pattern ++ "/")).

(** The mount point ["/api/"] of [app.use]: the path is [/api] itself or
    continues below it. *)
Definition under_api (path : string) : bool :=
  let p := lower path in
  String.eqb p "/api" || String.prefix "/api/" p.

(** [haystack.includes(needle)], also what [/CORS/.test] decides. *)
Fixpoint includes (needle haystack : string) : bool :=
  String.prefix needle haystack ||
  match haystack with
  | EmptyString => false
  | String _ rest => includes needle rest
  end.

(** The [origin] callback given to [cors]: [None] is [cb(null, true)],
    [Some err] is [cb(err)]. A missing header reads as [undefined]. *)
Definition cors_origin (origin : option string) : option js_error :=
  let absent := match origin with None => true | Some o => String.eqb o "" end in
  if absent || existsb (String.eqb (default "" origin)) (allowedOrigins cfg)
  then None
  else Some {| err_name := "Error"; err_message := "CORS: origin not allowed" |}.

(** The last [app.use]: the error-handling middleware. *)
Definition error_middleware (err : js_error) : response :=
  if includes "CORS" (Error_toString err)
  then failure 403 (error_text err)
  else failure 500 "Internal server error".

(** *** Rate limiter

    [rateLimit({windowMs: 60_000, max: 120, ...})] with the library's
    memory store: per client key, the number of hits of the current window
    and the time the window ends. A hit after that time opens a new window;
    a hit that brings the count above [max] is answered 429. *)
Definition windowMs : Z := 60000.
Definition max_hits : Z := 120.

Definition rate_limit (store : gmap string (Z * Z)) (key : string) (now : Z)
  : bool * gmap string (Z * Z) :=
  let '(hits, reset) :=
    match store !! key with
    | Some (h, r) => if r <=? now then (0, now + windowMs) else (h, r)
    | None => (0, now + windowMs)
    end in
  (max_hits <? hits + 1, <[key := (hits + 1, reset)]> store).

Definition too_many : response :=
  {| status := 429; body := Text "Too many requests, please try again later." |}.

(** *** Routes *)

Definition is_get (m : method) : bool :=
  match m with GET | HEAD => true | _ => false end.

Definition is_post (m : method) : bool :=
  match m with POST => true | _ => false end.

Definition get_root : Handler :=
  fun _ => ({| status := 200; body := Text (APP_NAME cfg ++ " is running") |}, []).

Definition get_health (now : Z) : Handler :=
  fun _ => ({| status := 200;
               body := Json (VObj [ ("ok", VBool true);
                                    ("service", VStr (APP_NAME cfg));
                                    ("time", VStr (Date_toISOString now)) ]) |}, []).

Definition method_name (m : method) : string :=
  match m with
  | GET => "GET"
  | HEAD => "HEAD"
  | POST => "POST"
  | OPTIONS => "OPTIONS"
  | OtherMethod name => name
  end.

(** No route matched: Express answers 404 itself, with the page of its
    final handler for the method and the path of the request. *)
Definition not_found (req : request) : Handler :=
  fun _ => ({| status := 404;
               body := FinalHandlerPage (method_name (req_method req)) (req_path req) |},
            []).

Definition router (req : request) (req_body : jsval) : Handler :=
  let m := req_method req in
  let p := req_path req in
  if is_get m && route_matches "/" p then get_root
  else if is_get m && route_matches "/health" p then get_health (req_time req)
  else if is_get m && route_matches "/api/tokens" p then get_api_tokens
  else if is_post m && route_matches "/api/quote" p then post_api_quote req_body
  else if is_post m && route_matches "/api/swap" p then post_api_swap req_body
  else not_found req.

(** The chain in the order of the [app.use] calls: helmet, compression and
    morgan touch headers and the log only; then the body parser, the CORS
    check (which answers a preflight itself), the rate limiter on the API
    prefix, the routes; an error passed to [next] goes to the error
    middleware. The result is the response, the limiter's store after the
    request and the outbound calls made. *)
Definition app (store : gmap string (Z * Z)) (req : request) (up : Upstream)
  : response * gmap string (Z * Z) * list OutboundCall :=
  match req_body req with
  | Throw err => (error_middleware err, store, [])
  | Normal req_body =>
      match cors_origin (req_origin req) with
      | Some err => (error_middleware err, store, [])
      | None =>
          match req_method req with
          | OPTIONS => ({| status := 204; body := Empty |}, store, [])
          | _ =>
              let '(limited, store') :=
                if under_api (req_path req)
                then rate_limit store (req_ip req) (req_time req)
                else (false, store) in
              if limited then (too_many, store', [])
              else let '(res, calls) := router req req_body up in (res, store', calls)
          end
      end
  end.

(** ** Serving a sequence of requests *)

(** What the routes answer to a request that passed the filters. *)
Definition handle (req : request) (up : Upstream) : response * list OutboundCall :=
  match req_body req with
  | Normal parsed => router req parsed up
  | Throw err => (error_middleware err, [])
  end.

(** The request reaches the rate limiter: its body parsed, its origin
    passed, it is no preflight and its path lies under the API prefix. *)
Definition reaches_limiter (req : request) : bool :=
  match req_body req, cors_origin (req_origin req), req_method req with
  | Normal _, None, OPTIONS => false
  | Normal _, None, _ => under_api (req_path req)
  | _, _, _ => false
  end.

(** The request is counted against client [ip]. *)
Definition counted (ip : string) (req : request) : bool :=
  reaches_limiter req && String.eqb (req_ip req) ip.

(** Requests served one after the other, the store threaded through. *)
Fixpoint serve (store : gmap string (Z * Z)) (reqs : list request) (up : Upstream)
  : list (response * list OutboundCall) :=
  match reqs with
  | [] => []
  | req :: rest =>
      let '(res, store', calls) := app store req up in
      (res, calls) :: serve store' rest up
  end.

End Service.

(** ** A runtime to evaluate the model on concrete inputs

    Any implementation of the interface serves; this one prints integers in
    decimal, a fractional number as the product it stands for, issues by
    their code and path, and the fault texts of V8. *)

Definition show_code (c : issue_code) : string :=
  match c with
  | invalid_type => "invalid_type"
  | too_small => "too_small"
  | too_big => "too_big"
  | invalid_string => "invalid_string"
  end.

Definition show_issue (i : ZodIssue) : string :=
  show_code (issue_kind i) ++ " at " ++ String.concat "." (issue_path i).

Definition pad (width : nat) (z : Z) : string :=
  let d := decimal z in
  String.concat "" (repeat "0" (width - String.length d)) ++ d.

(** [new Date(ms).toISOString()] for the years 1970 to 9999: the civil
    date of a day count, then the time of day. *)
Definition iso_of_ms (ms : Z) : string :=
  let days := ms / 86400000 in
  let rest := ms mod 86400000 in
  let z := days + 719468 in
  let era := z / 146097 in
  let doe := z - era * 146097 in
  let yoe := (doe - doe / 1460 + doe / 36524 - doe / 146096) / 365 in
  let doy := doe - (365 * yoe + yoe / 4 - yoe / 100) in
  let mp := (5 * doy + 2) / 153 in
  let d := doy - (153 * mp + 2) / 5 + 1 in
  let m := if mp <? 10 then mp + 3 else mp - 9 in
  let y := yoe + era * 400 + (if m <=? 2 then 1 else 0) in
  pad 4 y ++ "-" ++ pad 2 m ++ "-" ++ pad 2 d ++ "T" ++
  pad 2 (rest / 3600000) ++ ":" ++ pad 2 (rest / 60000 mod 60) ++ ":" ++
  pad 2 (rest / 1000 mod 60) ++ "." ++ pad 3 (rest mod 1000) ++ "Z".

Definition show_number (n : number) : string :=
  match n with
  | Int z => decimal z
  | Frac m e => decimal m ++ "*2^" ++ decimal e
  | Infinite false => "Infinity"
  | Infinite true => "-Infinity"
  end.

Definition show_fault (f : fault) : string :=
  match f with
  | ReadOfNullish VNull key => "Cannot read properties of null (reading '" ++ key ++ "')"
  | ReadOfNullish _ key => "Cannot read properties of undefined (reading '" ++ key ++ "')"
  | NotAFunction callee => callee ++ " is not a function"
  | NotPrimitive => "Cannot convert object to primitive value"
  end.

Definition show_issues (issues : list ZodIssue) : string :=
  "[" ++ String.concat "; " (map show_issue issues) ++ "]".

Definition show_issues_nonempty (issues : list ZodIssue)
  : show_issues issues <> "" :=
  fun H : show_issues issues = "" =>
    eq_ind (show_issues issues)
      (fun s => match s with EmptyString => False | String _ _ => True end)
      I "" H.

#[local] Instance sample_runtime : Runtime := {|
  Number_toString := show_number;
  Number_toString_int := fun z _ => eq_refl;
  ZodError_message := show_issues;
  ZodError_message_nonempty := show_issues_nonempty;
  TypeError_message := show_fault;
  AbortError_message := "This operation was aborted";
  Date_toISOString := iso_of_ms
|}.

Definition sample_config : Config := load_config
  {| env_APP_NAME := None; env_JUPITER_BASE := None; env_CORS_ORIGINS := None |}.

Definition other_config : Config := load_config
  {| env_APP_NAME := Some "swap proxy";
     env_JUPITER_BASE := Some "https://upstream.example";
     env_CORS_ORIGINS := Some "https://a.example, https://b.example" |}.

Definition SOL : string := "So11111111111111111111111111111111111111112".
Definition USDC : string := "EPjFWdd5AufqSSqeM2qN1xzybapC8G4wEGGkZwyTDt1v".

Definition quote_body (amount : string) : jsval :=
  VObj [("inputMint", VStr SOL); ("outputMint", VStr USDC); ("amount", VStr amount)].

Definition answers (outcome : fetch_outcome) : Upstream := fun _ => outcome.

Definition api_request (m : method) (path : string) (origin : option string)
    (time : Z) (parsed : jsval) : request :=
  {| req_method := m; req_path := path; req_origin := origin;
     req_ip := "198.51.100.7"; req_time := time; req_body := Normal parsed |}.

Definition upstream_records : list jsval :=
  [ VObj [ ("address", VStr SOL); ("chainId", VNum (Int 101)); ("symbol", VStr "SOL");
           ("name", VStr "Wrapped SOL"); ("decimals", VNum (Int 9));
           ("logoURI", VStr "https://example.org/sol.png") ];
    VObj [ ("address", VStr USDC); ("symbol", VStr "USDC"); ("name", VStr "USD Coin");
           ("decimals", VNum (Int 6)); ("tags", VArr [VStr "verified"]);
           ("extensions", VObj [("coingeckoId", VStr "usd-coin")]) ] ].

Definition swap_body : jsval :=
  VObj [ ("userPublicKey", VStr "9xQeWvG816bUx9EPjHmaT23yvVM2ZWbrrpZb9PusVFin");
         ("quoteResponse", VObj [("outAmount", VStr "987")]) ].

Definition burst (times : list Z) : list request :=
  map (fun t => api_request GET "/api/tokens" None t (VObj [])) times.


(** ** What the claims speak of *)

(** The field [key] of a request body or of an upstream payload:
    [undefined] when the value is not an object or has no such key. *)
Definition field (v : jsval) (key : string) : jsval :=
  match v with
  | VObj props => default VUndef (lookup_prop key props)
  | _ => VUndef
  end.

(** A string made of decimal digits only. *)
Definition decimal_digits (s : string) : Prop :=
  Forall (fun c => In c ["0"; "1"; "2"; "3"; "4"; "5"; "6"; "7"; "8"; "9"]%char)
         (list_ascii_of_string s).

(** A non-empty string of decimal digits. *)
Definition digit_string (v : jsval) : Prop :=
  exists s, v = VStr s /\ s <> "" /\ decimal_digits s.

(** The slippage a field value stands for: the default when absent, the
    value when it is an integer from 1 to 1000. *)
Definition slippage_of (v : jsval) : option Z :=
  match v with
  | VUndef => Some 50
  | VNum (Int n) => if (1 <=? n) && (n <=? 1000) then Some n else None
  | _ => None
  end.

(** The flag a field value stands for, with the default of the schema. *)
Definition flag_of (fallback : bool) (v : jsval) : option bool :=
  match v with
  | VUndef => Some fallback
  | VBool b => Some b
  | _ => None
  end.

(** The fee a field value stands for: the default when absent, the value
    when it is a non-negative integer. *)
Definition fee_of (v : jsval) : option Z :=
  match v with
  | VUndef => Some 0
  | VNum (Int n) => if 0 <=? n then Some n else None
  | _ => None
  end.

Definition quote_ok (quote : jsval) : response :=
  {| status := 200; body := Json (VObj [("ok", VBool true); ("quote", quote)]) |}.

Definition swap_ok (swapTransaction : jsval) : response :=
  {| status := 200;
     body := Json (VObj [("ok", VBool true); ("swapTransaction", swapTransaction)]) |}.

Definition swap_payload (key : string) (quote : list (string * jsval))
    (wrap shared dynamic : bool) (fee : Z) : jsval :=
  VObj [ ("quoteResponse", VObj quote); ("userPublicKey", VStr key);
         ("wrapAndUnwrapSol", VBool wrap); ("dynamicComputeUnitLimit", VBool dynamic);
         ("prioritizationFeeLamports", VNum (Int fee)); ("useSharedAccounts", VBool shared) ].

Definition is_record (t : jsval) : Prop := exists props, t = VObj props.

(** The five fields kept of an upstream record. *)
Definition projection (t : jsval) : jsval :=
  VObj [ ("address", field t "address"); ("symbol", field t "symbol");
         ("name", field t "name"); ("decimals", field t "decimals");
         ("tags", if truthy (field t "tags") then field t "tags" else VArr []) ].

(** The result of one key of an object schema: the entry it contributes to
    the parsed object and the issues it records. *)
Definition object_field `{RT : Runtime} (props : list (string * jsval))
    (path : list string) (ks : string * zschema)
  : list (string * jsval) * list ZodIssue :=
  let '(x', ix) :=
    zparse (snd ks) (path ++ [fst ks])%list (default VUndef (lookup_prop (fst ks) props)) in
  (if match x' with VUndef => has_own (fst ks) props | _ => true end
   then [(fst ks, x')] else [], ix).

(** ** Notions of the further properties *)

(** The string holds a comma. *)
Fixpoint has_comma (s : string) : bool :=
  match s with
  | EmptyString => false
  | String c rest => Ascii.eqb c "," || has_comma rest
  end.

(** The string starts, or ends, with white space. *)
Definition starts_blank (s : string) : bool :=
  match s with
  | EmptyString => false
  | String c _ => is_space c
  end.

Fixpoint ends_blank (s : string) : bool :=
  match s with
  | EmptyString => false
  | String c EmptyString => is_space c
  | String _ rest => ends_blank rest
  end.

(** The comma-separated pieces of CORS_ORIGINS, as [load_config] reads them. *)
Definition origin_pieces (env : Env) : list string :=
  split_comma (env_or (env_CORS_ORIGINS env) "").

(** [null] or [undefined]. *)
Definition nullish (v : jsval) : Prop := v = VNull \/ v = VUndef.

(** * Properties *)

Example decimal_500 : decimal 500 = "500".
Proof. reflexivity. Qed.

Example decimal_neg : decimal (-1204) = "-1204".
Proof. reflexivity. Qed.

Example iso_epoch : iso_of_ms 0 = "1970-01-01T00:00:00.000Z".
Proof. reflexivity. Qed.

Example iso_2024 : iso_of_ms 1709210096789 = "2024-02-29T12:34:56.789Z".
Proof. reflexivity. Qed.

Section Properties.
Context `{RT : Runtime}.
Variable cfg : Config.

(** ** Schemas *)

Lemma zparse_object (shape : list (string * zschema)) path props :
  zparse (z_object shape) path (VObj props) =
  (VObj (without_proto (concat (map (fun ks => fst (object_field props path ks)) shape))),
   concat (map (fun ks => snd (object_field props path ks)) shape)).
Proof.
  simpl.
  match goal with
  | |- (let '(out, issues) := ?f shape in _) = _ =>
      assert (E : forall l,
                f l = (concat (map (fun ks => fst (object_field props path ks)) l),
                       concat (map (fun ks => snd (object_field props path ks)) l)))
  end.
  { induction l as [|[k sk] rest IH]; simpl; [reflexivity|].
    unfold object_field at 1 3; simpl.
    destruct (zparse sk (path ++ [k])%list (default VUndef (lookup_prop k props)))
      as [x' ix].
    rewrite IH. reflexivity. }
  rewrite E. reflexivity.
Qed.

Lemma object_issue_in (shape : list (string * zschema)) path props k sk i :
  In (k, sk) shape ->
  In i (snd (zparse sk (path ++ [k])%list (field (VObj props) k))) ->
  In i (snd (zparse (z_object shape) path (VObj props))).
Proof.
  intros Hk Hi. rewrite zparse_object. simpl.
  apply in_concat. exists (snd (object_field props path (k, sk))). split.
  - apply in_map_iff. exists (k, sk). split; [reflexivity | exact Hk].
  - unfold object_field. simpl in *.
    destruct (zparse sk _ _) as [x' ix]. exact Hi.
Qed.

Lemma not_object_issue (shape : list (string * zschema)) path v :
  (forall props, v <> VObj props) ->
  zparse (z_object shape) path v = (VUndef, [mk_issue path invalid_type]).
Proof.
  intros Hv. destruct v; try reflexivity. exfalso. eapply Hv. reflexivity.
Qed.

Lemma Zod_parse_invalid (s : zschema) v i :
  In i (snd (zparse s [] v)) ->
  exists issues, In i issues /\ Zod_parse s v = Throw (ZodError issues).
Proof.
  unfold Zod_parse. destruct (zparse s [] v) as [d issues]. simpl.
  intros Hi. exists issues. split; [exact Hi|].
  destruct issues; [destruct Hi | reflexivity].
Qed.

Lemma Zod_parse_valid (s : zschema) v data :
  Zod_parse s v = Normal data -> zparse s [] v = (data, []).
Proof.
  unfold Zod_parse. destruct (zparse s [] v) as [d [|i issues]]; [|discriminate].
  intros [= ->]. reflexivity.
Qed.

Lemma error_text_ZodError issues : error_text (ZodError issues) = ZodError_message issues.
Proof.
  unfold error_text, ZodError. simpl.
  destruct (String.eqb_spec (ZodError_message issues) ""); [|reflexivity].
  exfalso. eapply ZodError_message_nonempty. eassumption.
Qed.


(** ** The regular expression of [amount] *)

Lemma is_digit_spec (c : ascii) :
  is_digit c = true <->
  In c ["0"; "1"; "2"; "3"; "4"; "5"; "6"; "7"; "8"; "9"]%char.
Proof.
  destruct c as [[] [] [] [] [] [] [] []]; vm_compute; split; intros H;
    try discriminate; try reflexivity; try tauto;
    repeat (destruct H as [H|H]; [discriminate H|]); destruct H.
Qed.

Lemma all_digits_spec (s : string) : all_digits s = true <-> decimal_digits s.
Proof.
  unfold decimal_digits. induction s as [|c s IH]; simpl.
  - split; [intros _; constructor | reflexivity].
  - rewrite andb_true_iff, IH, is_digit_spec. split.
    + intros [Hc Hs]. constructor; assumption.
    + intros H. inversion H; subst. split; assumption.
Qed.

Lemma re_digits_spec (s : string) : re_digits s = true <-> digit_string (VStr s).
Proof.
  unfold digit_string. split.
  - intros H. exists s. destruct s as [|c s]; [discriminate|].
    split; [reflexivity|]. split; [discriminate|].
    apply all_digits_spec. exact H.
  - intros (s' & [= <-] & Hne & Hd). destruct s as [|c s]; [contradiction|].
    apply all_digits_spec. exact Hd.
Qed.

(** ** Validation failures never reach the upstream *)

Lemma quote_validation_error body up e :
  Zod_parse QuoteBody body = Throw e ->
  post_api_quote cfg body up = (failure 400 (error_text e), []).
Proof.
  intros H. unfold post_api_quote, try_catch, quote_try, bind, lift.
  rewrite H. reflexivity.
Qed.

Lemma swap_validation_error body up e :
  Zod_parse SwapBody body = Throw e ->
  post_api_swap cfg body up = (failure 400 (error_text e), []).
Proof.
  intros H. unfold post_api_swap, try_catch, swap_try, bind, lift.
  rewrite H. reflexivity.
Qed.

Lemma quote_issue body up i :
  In i (snd (zparse QuoteBody [] body)) ->
  exists issues, In i issues /\
    post_api_quote cfg body up = (failure 400 (ZodError_message issues), []).
Proof.
  intros Hi. destruct (Zod_parse_invalid _ _ _ Hi) as (issues & Hin & Hp).
  exists issues. split; [exact Hin|].
  rewrite (quote_validation_error _ _ _ Hp). rewrite error_text_ZodError. reflexivity.
Qed.

Lemma swap_issue body up i :
  In i (snd (zparse SwapBody [] body)) ->
  exists issues, In i issues /\
    post_api_swap cfg body up = (failure 400 (ZodError_message issues), []).
Proof.
  intros Hi. destruct (Zod_parse_invalid _ _ _ Hi) as (issues & Hin & Hp).
  exists issues. split; [exact Hin|].
  rewrite (swap_validation_error _ _ _ Hp). rewrite error_text_ZodError. reflexivity.
Qed.

(** A body that is not an object fails the type test of the schema. *)
Lemma body_not_object (shape : list (string * zschema)) body :
  (forall props, body <> VObj props) ->
  In (mk_issue [] invalid_type) (snd (zparse (z_object shape) [] body)).
Proof.
  intros H. rewrite not_object_issue by exact H. left. reflexivity.
Qed.

Lemma amount_issue (body : jsval) :
  ~ digit_string (field body "amount") ->
  exists i,
    (i = mk_issue ["amount"] invalid_type \/ i = mk_issue ["amount"] invalid_string \/
     i = mk_issue [] invalid_type) /\
    In i (snd (zparse QuoteBody [] body)).
Proof.
  intros Hbad.
  destruct body as [| | | | |items|props].
  1-6: (exists (mk_issue [] invalid_type); split; [tauto|];
        apply body_not_object; discriminate).
  destruct (field (VObj props) "amount") as [| | | |s| |] eqn:Hf.
  5: { destruct (re_digits s) eqn:Hre.
       - exfalso. apply Hbad. apply re_digits_spec. exact Hre.
       - exists (mk_issue ["amount"] invalid_string). split; [tauto|].
         eapply (object_issue_in _ [] props "amount"); [right; right; left; reflexivity|].
         rewrite Hf. simpl. rewrite Hre. left. reflexivity. }
  all: exists (mk_issue ["amount"] invalid_type); (split; [tauto|]);
       (eapply (object_issue_in _ [] props "amount"); [right; right; left; reflexivity|]);
       rewrite Hf; left; reflexivity.
Qed.

Lemma bad_amount_answer (body : jsval) (up : Upstream) :
  ~ digit_string (field body "amount") ->
  exists issues, post_api_quote cfg body up = (failure 400 (ZodError_message issues), []).
Proof.
  intros Hbad. destruct (amount_issue body Hbad) as (i & _ & Hi).
  destruct (quote_issue body up i Hi) as (issues & _ & Hq). exists issues. exact Hq.
Qed.

(** C3: a quote request whose [amount] is not a string of decimal digits
    is answered 400 with the validation error, and no outbound call is
    made. *)
Theorem quote_rejects_non_digit_amount (body : jsval) (up : Upstream) :
  ~ digit_string (field body "amount") ->
  exists issues,
    (In (mk_issue ["amount"] invalid_type) issues \/
     In (mk_issue ["amount"] invalid_string) issues \/
     In (mk_issue [] invalid_type) issues) /\
    post_api_quote cfg body up = (failure 400 (ZodError_message issues), []).
Proof.
  intros Hbad. destruct (amount_issue body Hbad) as (i & Hkind & Hi).
  destruct (quote_issue body up i Hi) as (issues & Hin & Hq).
  exists issues. split; [|exact Hq].
  destruct Hkind as [-> | [-> | ->]]; tauto.
Qed.

(** C10: a quote request whose [inputMint] or [outputMint] is a string
    of fewer than 8 characters is answered 400 and no outbound call is
    made. *)
Theorem quote_rejects_short_mint (body : jsval) (up : Upstream) (s : string) :
  field body "inputMint" = VStr s \/ field body "outputMint" = VStr s ->
  (String.length s < 8)%nat ->
  exists issues,
    (In (mk_issue ["inputMint"] too_small) issues \/
     In (mk_issue ["outputMint"] too_small) issues) /\
    post_api_quote cfg body up = (failure 400 (ZodError_message issues), []).
Proof.
  intros Hf Hlen.
  destruct body as [| | | | |items|props]; try (destruct Hf; discriminate).
  assert (Hlt : (String.length s <? 8)%nat = true) by (apply Nat.ltb_lt; exact Hlen).
  destruct Hf as [Hf|Hf].
  - destruct (quote_issue (VObj props) up (mk_issue ["inputMint"] too_small))
      as (issues & Hin & Hq); [|exists issues; tauto].
    eapply (object_issue_in _ [] props "inputMint"); [left; reflexivity|].
    rewrite Hf. simpl. rewrite Hlt. left. reflexivity.
  - destruct (quote_issue (VObj props) up (mk_issue ["outputMint"] too_small))
      as (issues & Hin & Hq); [|exists issues; tauto].
    eapply (object_issue_in _ [] props "outputMint"); [right; left; reflexivity|].
    rewrite Hf. simpl. rewrite Hlt. left. reflexivity.
Qed.

(** C8: a swap request whose [userPublicKey] is a string shorter than 32
    characters, with a [quoteResponse] object, is answered 400 with the
    validation error message and no outbound call is made. *)
Theorem swap_rejects_short_key (body : jsval) (up : Upstream)
    (quote : list (string * jsval)) (s : string) :
  field body "quoteResponse" = VObj quote ->
  field body "userPublicKey" = VStr s ->
  (String.length s < 32)%nat ->
  exists issues,
    In (mk_issue ["userPublicKey"] too_small) issues /\
    post_api_swap cfg body up = (failure 400 (ZodError_message issues), []).
Proof.
  intros _ Hf Hlen.
  destruct body as [| | | | |items|props]; try discriminate.
  assert (Hlt : (String.length s <? 32)%nat = true) by (apply Nat.ltb_lt; exact Hlen).
  apply swap_issue.
  eapply (object_issue_in _ [] props "userPublicKey"); [left; reflexivity|].
  rewrite Hf. simpl. rewrite Hlt. left. reflexivity.
Qed.

(** ** What a valid body parses to *)

Lemma object_field_valid props path k sk entry :
  object_field props path (k, sk) = (entry, []) ->
  exists x, zparse sk (path ++ [k])%list (field (VObj props) k) = (x, []) /\
            entry = if match x with VUndef => has_own k props | _ => true end
                    then [(k, x)] else [].
Proof.
  unfold object_field. simpl.
  destruct (zparse sk _ _) as [x ix]. intros [= <- ->]. exists x. split; reflexivity.
Qed.

Lemma string_min_valid path v n x :
  zparse (z_string [min_length n]) path v = (x, []) ->
  exists s, v = VStr s /\ x = VStr s /\ (n <= String.length s)%nat.
Proof.
  destruct v; simpl; try discriminate.
  destruct (String.length s <? n)%nat eqn:E; [discriminate|].
  intros [= <-]. exists s. repeat split. apply Nat.ltb_ge. exact E.
Qed.

Lemma amount_valid path v src x :
  zparse (z_string [regex src re_digits]) path v = (x, []) ->
  exists s, v = VStr s /\ x = VStr s /\ re_digits s = true.
Proof.
  destruct v; simpl; try discriminate.
  destruct (re_digits s) eqn:E; [|discriminate].
  intros [= <-]. exists s. repeat split. exact E.
Qed.

Lemma slippage_valid path v x :
  zparse (z_default (z_number [int; min 1; max 1000]) (VNum (Int 50))) path v = (x, []) <->
  exists n, slippage_of v = Some n /\ x = VNum (Int n).
Proof.
  split.
  - destruct v as [| | |[n|m e|neg]| | |]; simpl; try discriminate.
    + intros [= <-]. exists 50. split; reflexivity.
    + destruct (n <? 1) eqn:E1; [discriminate|].
      destruct (1000 <? n) eqn:E2; [discriminate|].
      intros [= <-]. exists n. split; [|reflexivity].
      assert (H1 : (1 <=? n) = true) by lia. assert (H2 : (n <=? 1000) = true) by lia.
      rewrite H1, H2. reflexivity.
  - intros (n & Hs & ->).
    destruct v as [| | |[k|m e|neg]| | |]; simpl in Hs; try discriminate.
    + injection Hs as <-. reflexivity.
    + destruct (1 <=? k) eqn:E1; [|discriminate].
      destruct (k <=? 1000) eqn:E2; [|discriminate].
      injection Hs as ->. simpl.
      assert (H1 : (n <? 1) = false) by lia. assert (H2 : (1000 <? n) = false) by lia.
      rewrite H1, H2. reflexivity.
Qed.

Lemma flag_valid path v fallback x :
  zparse (z_default (z_optional z_boolean) (VBool fallback)) path v = (x, []) <->
  exists b, flag_of fallback v = Some b /\ x = VBool b.
Proof.
  split.
  - destruct v; simpl; try discriminate; intros [= <-]; eexists; split; reflexivity.
  - intros (b & Hf & ->). destruct v; simpl in Hf; try discriminate;
      injection Hf as <-; reflexivity.
Qed.

Lemma field_object v key x : field v key = x -> x <> VUndef -> exists props, v = VObj props.
Proof.
  destruct v; simpl; intros <- H; try contradiction. eexists. reflexivity.
Qed.

Lemma string_min_accepts path s n :
  (n <= String.length s)%nat ->
  zparse (z_string [min_length n]) path (VStr s) = (VStr s, []).
Proof.
  intros H. simpl. apply Nat.ltb_ge in H. rewrite H. reflexivity.
Qed.

Lemma QuoteBody_valid (body data : jsval) :
  Zod_parse QuoteBody body = Normal data <->
  exists a b c n d,
    field body "inputMint" = VStr a /\ (8 <= String.length a)%nat /\
    field body "outputMint" = VStr b /\ (8 <= String.length b)%nat /\
    field body "amount" = VStr c /\ re_digits c = true /\
    slippage_of (field body "slippageBps") = Some n /\
    flag_of false (field body "onlyDirectRoutes") = Some d /\
    data = VObj [ ("inputMint", VStr a); ("outputMint", VStr b); ("amount", VStr c);
                  ("slippageBps", VNum (Int n)); ("onlyDirectRoutes", VBool d) ].
Proof.
  split.
  - intros H. apply Zod_parse_valid in H.
    destruct body as [| | | | |items|props]; try discriminate.
    unfold QuoteBody in H. rewrite zparse_object in H. cbn [map concat] in H.
    destruct (object_field props [] ("inputMint", _)) as [o1 i1] eqn:E1.
    destruct (object_field props [] ("outputMint", _)) as [o2 i2] eqn:E2.
    destruct (object_field props [] ("amount", _)) as [o3 i3] eqn:E3.
    destruct (object_field props [] ("slippageBps", _)) as [o4 i4] eqn:E4.
    destruct (object_field props [] ("onlyDirectRoutes", _)) as [o5 i5] eqn:E5.
    cbn [fst snd] in H. injection H as Hd Hi.
    apply app_eq_nil in Hi as [-> Hi]. apply app_eq_nil in Hi as [-> Hi].
    apply app_eq_nil in Hi as [-> Hi]. apply app_eq_nil in Hi as [-> Hi].
    apply app_eq_nil in Hi as [-> _].
    apply object_field_valid in E1 as (x1 & P1 & ->).
    apply object_field_valid in E2 as (x2 & P2 & ->).
    apply object_field_valid in E3 as (x3 & P3 & ->).
    apply object_field_valid in E4 as (x4 & P4 & ->).
    apply object_field_valid in E5 as (x5 & P5 & ->).
    apply string_min_valid in P1 as (a & Ha & -> & La).
    apply string_min_valid in P2 as (b & Hb & -> & Lb).
    apply amount_valid in P3 as (c & Hc & -> & Rc).
    apply slippage_valid in P4 as (n & Hn & ->).
    apply flag_valid in P5 as (d & Hfl & ->).
    exists a, b, c, n, d. subst data. repeat split; assumption.
  - intros (a & b & c & n & d & Ha & La & Hb & Lb & Hc & Rc & Hn & Hfl & ->).
    destruct (field_object _ _ _ Ha) as [props ->]; [discriminate|].
    unfold Zod_parse, QuoteBody. rewrite zparse_object. cbn [map concat].
    unfold object_field. cbn [fst snd].
    change (default VUndef (lookup_prop ?k props)) with (field (VObj props) k).
    rewrite Ha, Hb, Hc.
    rewrite !string_min_accepts by assumption.
    assert (P3 : forall path, zparse (z_string [regex "^\d+$" re_digits]) path (VStr c)
                 = (VStr c, [])) by (intros; simpl; rewrite Rc; reflexivity).
    rewrite P3.
    rewrite (proj2 (slippage_valid _ _ (VNum (Int n)))) by (exists n; split; [exact Hn|reflexivity]).
    rewrite (proj2 (flag_valid _ _ false (VBool d))) by (exists d; split; [exact Hfl|reflexivity]).
    reflexivity.
Qed.

(** ** The upstream client *)

Lemma jsval_array_ind (P : jsval -> Prop) :
  (forall v, (forall items, v <> VArr items) -> P v) ->
  (forall items, Forall P items -> P (VArr items)) ->
  forall v, P v.
Proof.
  intros Hbase Harr. fix go 1. intros v.
  destruct v as [| | | | |items|props]; try (apply Hbase; discriminate).
  apply Harr. revert items. fix all 1. intros [|x rest]; constructor.
  - apply go.
  - apply all.
Qed.

Lemma ToString_throws (v : jsval) (e : js_error) :
  ToString v = Throw e -> e = TypeError NotPrimitive.
Proof.
  revert e. induction v as [v Hv|items Hall] using jsval_array_ind; intros e.
  - destruct v as [| |[]| | |items|props]; simpl; try discriminate.
    + exfalso. eapply Hv. reflexivity.
    + destruct (has_own "toString" props); [|discriminate]. intros [= <-]. reflexivity.
  - simpl. induction Hall as [|x rest Hx _ IH]; [discriminate|].
    assert (Hel : forall e',
              match x with VUndef | VNull => Normal "" | _ => ToString x end = Throw e' ->
              e' = TypeError NotPrimitive).
    { intros e'. destruct x; try discriminate; apply Hx. }
    destruct rest as [|y rest'].
    + apply Hel.
    + destruct (match x with VUndef | VNull => Normal "" | _ => ToString x end)
        as [sx|ex] eqn:Ex.
      * simpl. simpl in IH.
        match goal with
        | |- cbind ?j _ = _ -> _ => destruct j as [sr|er] eqn:Er
        end; simpl; [discriminate|].
        intros [= <-]. apply IH. reflexivity.
      * simpl. intros [= <-]. apply Hel. reflexivity.
Qed.

Lemma get_opt_field (js : jsval) (key : string) : get_opt js key = Normal (field js key).
Proof. destruct js; reflexivity. Qed.

Lemma fetchJSON_calls (call : OutboundCall) (up : Upstream) :
  snd (fetchJSON call up) = [call].
Proof.
  unfold fetchJSON, bind, fetch, lift, throw, ret.
  destruct (up call) as [e| |st json]; simpl; try reflexivity.
  destruct (ok st); simpl; [reflexivity|].
  rewrite get_opt_field. simpl.
  destruct (new_Error _); reflexivity.
Qed.

Lemma fetchJSON_rejects call up e :
  up call = Rejects e -> fetchJSON call up = (Throw e, [call]).
Proof.
  intros H. unfold fetchJSON, bind, fetch. rewrite H. reflexivity.
Qed.

Lemma fetchJSON_timeout call up :
  up call = TimesOut -> fetchJSON call up = (Throw AbortError, [call]).
Proof.
  intros H. unfold fetchJSON, bind, fetch. rewrite H. reflexivity.
Qed.

Lemma fetchJSON_success call up st json :
  up call = Responds st json -> ok st = true ->
  fetchJSON call up = (Normal (default (VObj []) json), [call]).
Proof.
  intros H Hok. unfold fetchJSON, bind, fetch, ret. rewrite H. simpl.
  rewrite Hok. reflexivity.
Qed.

Lemma fetchJSON_failure call up st json :
  up call = Responds st json -> ok st = false ->
  fetchJSON call up =
  (match new_Error (js_or (field (default (VObj []) json) "error")
                          (VStr ("Fetch failed: " ++ Number_toString (Int st)))) with
   | Normal err => Throw err
   | Throw e => Throw e
   end, [call]).
Proof.
  intros H Hok. unfold fetchJSON, bind, fetch, lift, throw. rewrite H. simpl.
  rewrite Hok. simpl. rewrite get_opt_field. simpl.
  destruct (new_Error _); reflexivity.
Qed.

Lemma truthy_string (s : string) : s <> "" -> truthy (VStr s) = true.
Proof. destruct s; [contradiction | reflexivity]. Qed.

(** C2, as the code has it: the body is parsed whatever the status, an
    unparsable body counting as the empty object; a status outside 200-299
    makes the client throw. The message is the body's [error] field when
    that is a non-empty string, the string conversion of the field when it
    is another truthy value, and the generic text with the status code when
    the field is absent or falsy. The one truthy field that has no string
    conversion, an object with an own [toString] key (alone or inside
    arrays), makes the client throw the [TypeError] of the conversion
    instead. *)
Theorem fetchJSON_response (call : OutboundCall) (up : Upstream)
    (st : Z) (json : option jsval) :
  up call = Responds st json ->
  let js := default (VObj []) json in
  (ok st = true -> fetchJSON call up = (Normal js, [call])) /\
  (ok st = false ->
   exists e, fetchJSON call up = (Throw e, [call]) /\
     (forall s, field js "error" = VStr s -> s <> "" -> e = mk_error "Error" s) /\
     (forall s, truthy (field js "error") = true ->
                ToString (field js "error") = Normal s -> e = mk_error "Error" s) /\
     (forall t, truthy (field js "error") = true ->
                ToString (field js "error") = Throw t ->
                e = t /\ t = TypeError NotPrimitive) /\
     (truthy (field js "error") = false ->
        e = mk_error "Error" ("Fetch failed: " ++ Number_toString (Int st)) /\
        (Z.abs st < 10 ^ 21 -> err_message e = "Fetch failed: " ++ decimal st))).
Proof.
  intros Hup js. split.
  - intros Hok. apply (fetchJSON_success _ _ st); assumption.
  - intros Hok. rewrite (fetchJSON_failure _ _ _ _ Hup Hok). fold js.
    unfold js_or, new_Error.
    destruct (truthy (field js "error")) eqn:Ht.
    + destruct (ToString (field js "error")) as [s|t] eqn:Hs; simpl.
      * eexists. split; [reflexivity|]. split; [|split; [|split]].
        -- intros s' Hf _. rewrite Hf in Hs. simpl in Hs. congruence.
        -- intros s' _ [= ->]. reflexivity.
        -- discriminate.
        -- discriminate.
      * exists t. split; [reflexivity|]. split; [|split; [|split]].
        -- intros s' Hf _. rewrite Hf in Hs. discriminate.
        -- discriminate.
        -- intros t' _ [= <-]. split; [reflexivity|].
           apply (ToString_throws _ _ Hs).
        -- discriminate.
    + simpl. eexists. split; [reflexivity|]. split; [|split; [|split]].
      * intros s Hf Hne. rewrite Hf, (truthy_string _ Hne) in Ht. discriminate.
      * discriminate.
      * discriminate.
      * intros _. split; [reflexivity|]. intros Hst. simpl.
        rewrite Number_toString_int by exact Hst. reflexivity.
Qed.

(** ** The quote route on a valid body *)

Lemma quote_run (body : jsval) (up : Upstream) a b c n d :
  Zod_parse QuoteBody body =
    Normal (VObj [ ("inputMint", VStr a); ("outputMint", VStr b); ("amount", VStr c);
                   ("slippageBps", VNum (Int n)); ("onlyDirectRoutes", VBool d) ]) ->
  let call := quote_call cfg a b c (Number_toString (Int n)) (if d then "true" else "false") in
  post_api_quote cfg body up =
  (match fst (fetchJSON call up) with
   | Normal quote => quote_ok quote
   | Throw e => failure 400 (error_text e)
   end, [call]).
Proof.
  intros H call.
  unfold post_api_quote, try_catch, quote_try, bind, lift, ret. rewrite H.
  cbn -[fetchJSON]. fold call.
  pose proof (fetchJSON_calls call up) as Hc.
  destruct (fetchJSON call up) as [[quote|e] t]; simpl in Hc; subst t; reflexivity.
Qed.

(** ** The swap schema *)

Lemma fee_valid path v x :
  zparse (z_default (z_optional (z_number [int; min 0])) (VNum (Int 0))) path v = (x, []) <->
  exists n, fee_of v = Some n /\ x = VNum (Int n).
Proof.
  split.
  - destruct v as [| | |[n|m e|neg]| | |]; simpl; try discriminate.
    + intros [= <-]. exists 0. split; reflexivity.
    + destruct (n <? 0) eqn:E1; [discriminate|].
      intros [= <-]. exists n. split; [|reflexivity].
      assert (H1 : (0 <=? n) = true) by lia. rewrite H1. reflexivity.
  - intros (n & Hs & ->).
    destruct v as [| | |[k|m e|neg]| | |]; simpl in Hs; try discriminate.
    + injection Hs as <-. reflexivity.
    + destruct (0 <=? k) eqn:E1; [|discriminate].
      injection Hs as ->. simpl.
      assert (H1 : (n <? 0) = false) by lia. rewrite H1. reflexivity.
Qed.

Lemma record_any_object path props :
  zparse (z_record z_any) path (VObj props) = (VObj (without_proto props), []).
Proof.
  simpl.
  match goal with
  | |- (let '(out, issues) := ?f props in _) = _ =>
      assert (E : forall l, f l = (l, []))
  end.
  { induction l as [|[k x] rest IH]; simpl; [reflexivity|]. rewrite IH. reflexivity. }
  rewrite E. reflexivity.
Qed.

Lemma record_any_valid path v x :
  zparse (z_record z_any) path v = (x, []) ->
  exists props, v = VObj props /\ x = VObj (without_proto props).
Proof.
  destruct v; try discriminate.
  rewrite record_any_object. intros [= <-]. eexists. split; reflexivity.
Qed.

Lemma SwapBody_valid (body data : jsval) :
  Zod_parse SwapBody body = Normal data <->
  exists key quote wrap shared dynamic fee,
    field body "userPublicKey" = VStr key /\ (32 <= String.length key)%nat /\
    field body "quoteResponse" = VObj quote /\
    flag_of true (field body "wrapAndUnwrapSol") = Some wrap /\
    flag_of true (field body "useSharedAccounts") = Some shared /\
    flag_of true (field body "dynamicComputeUnitLimit") = Some dynamic /\
    fee_of (field body "prioritizationFeeLamports") = Some fee /\
    data = VObj [ ("userPublicKey", VStr key);
                  ("quoteResponse", VObj (without_proto quote));
                  ("wrapAndUnwrapSol", VBool wrap); ("useSharedAccounts", VBool shared);
                  ("dynamicComputeUnitLimit", VBool dynamic);
                  ("prioritizationFeeLamports", VNum (Int fee)) ].
Proof.
  split.
  - intros H. apply Zod_parse_valid in H.
    destruct body as [| | | | |items|props]; try discriminate.
    unfold SwapBody in H. rewrite zparse_object in H. cbn [map concat] in H.
    destruct (object_field props [] ("userPublicKey", _)) as [o1 i1] eqn:E1.
    destruct (object_field props [] ("quoteResponse", _)) as [o2 i2] eqn:E2.
    destruct (object_field props [] ("wrapAndUnwrapSol", _)) as [o3 i3] eqn:E3.
    destruct (object_field props [] ("useSharedAccounts", _)) as [o4 i4] eqn:E4.
    destruct (object_field props [] ("dynamicComputeUnitLimit", _)) as [o5 i5] eqn:E5.
    destruct (object_field props [] ("prioritizationFeeLamports", _)) as [o6 i6] eqn:E6.
    cbn [fst snd] in H. injection H as Hd Hi.
    apply app_eq_nil in Hi as [-> Hi]. apply app_eq_nil in Hi as [-> Hi].
    apply app_eq_nil in Hi as [-> Hi]. apply app_eq_nil in Hi as [-> Hi].
    apply app_eq_nil in Hi as [-> Hi]. apply app_eq_nil in Hi as [-> _].
    apply object_field_valid in E1 as (x1 & P1 & ->).
    apply object_field_valid in E2 as (x2 & P2 & ->).
    apply object_field_valid in E3 as (x3 & P3 & ->).
    apply object_field_valid in E4 as (x4 & P4 & ->).
    apply object_field_valid in E5 as (x5 & P5 & ->).
    apply object_field_valid in E6 as (x6 & P6 & ->).
    apply string_min_valid in P1 as (key & Hk & -> & Lk).
    apply record_any_valid in P2 as (quote & Hq & ->).
    apply flag_valid in P3 as (wrap & Hw & ->).
    apply flag_valid in P4 as (shared & Hs & ->).
    apply flag_valid in P5 as (dynamic & Hdy & ->).
    apply fee_valid in P6 as (fee & Hfee & ->).
    exists key, quote, wrap, shared, dynamic, fee. subst data.
    repeat split; assumption.
  - intros (key & quote & wrap & shared & dynamic & fee
            & Hk & Lk & Hq & Hw & Hs & Hdy & Hfee & ->).
    destruct (field_object _ _ _ Hk) as [props ->]; [discriminate|].
    unfold Zod_parse, SwapBody. rewrite zparse_object. cbn [map concat].
    unfold object_field. cbn [fst snd].
    change (default VUndef (lookup_prop ?k props)) with (field (VObj props) k).
    rewrite Hk, Hq.
    rewrite !string_min_accepts by assumption.
    rewrite record_any_object.
    rewrite (proj2 (flag_valid _ (field (VObj props) "wrapAndUnwrapSol") true (VBool wrap)))
      by (exists wrap; split; [exact Hw|reflexivity]).
    rewrite (proj2 (flag_valid _ (field (VObj props) "useSharedAccounts") true (VBool shared)))
      by (exists shared; split; [exact Hs|reflexivity]).
    rewrite (proj2 (flag_valid _ (field (VObj props) "dynamicComputeUnitLimit") true (VBool dynamic)))
      by (exists dynamic; split; [exact Hdy|reflexivity]).
    rewrite (proj2 (fee_valid _ _ (VNum (Int fee)))) by (exists fee; split; [exact Hfee|reflexivity]).
    reflexivity.
Qed.

(** ** The swap route on a valid body *)

Lemma swap_run (body : jsval) (up : Upstream) key quote wrap shared dynamic fee :
  Zod_parse SwapBody body =
    Normal (VObj [ ("userPublicKey", VStr key); ("quoteResponse", VObj quote);
                   ("wrapAndUnwrapSol", VBool wrap); ("useSharedAccounts", VBool shared);
                   ("dynamicComputeUnitLimit", VBool dynamic);
                   ("prioritizationFeeLamports", VNum (Int fee)) ]) ->
  let call := swap_call cfg (swap_payload key quote wrap shared dynamic fee) in
  post_api_swap cfg body up =
  (match fst (fetchJSON call up) with
   | Normal js =>
       match get js "swapTransaction" with
       | Normal tx => swap_ok tx
       | Throw e => failure 400 (error_text e)
       end
   | Throw e => failure 400 (error_text e)
   end, [call]).
Proof.
  intros H call.
  unfold post_api_swap, try_catch, swap_try, bind, lift, ret. rewrite H.
  cbn -[fetchJSON]. fold (swap_payload key quote wrap shared dynamic fee). fold call.
  pose proof (fetchJSON_calls call up) as Hc.
  destruct (fetchJSON call up) as [[js|e] t]; simpl in Hc; subst t; [|reflexivity].
  cbn [fst]. destruct (get js "swapTransaction"); reflexivity.
Qed.

Lemma fetchJSON_normal call up js t :
  fetchJSON call up = (Normal js, t) ->
  exists st json, up call = Responds st json /\ ok st = true /\ js = default (VObj []) json.
Proof.
  destruct (up call) as [e| |st json] eqn:Hup.
  - rewrite (fetchJSON_rejects _ _ _ Hup). discriminate.
  - rewrite (fetchJSON_timeout _ _ Hup). discriminate.
  - destruct (ok st) eqn:Hok.
    + rewrite (fetchJSON_success _ _ _ _ Hup Hok). intros [= <- <-].
      exists st, json. repeat split. exact Hok.
    + rewrite (fetchJSON_failure _ _ _ _ Hup Hok).
      destruct (new_Error _); discriminate.
Qed.

Lemma get_field (js : jsval) (key : string) tx : get js key = Normal tx -> tx = field js key.
Proof. destruct js; simpl; intros [= <-]; reflexivity. Qed.

Lemma swap_valid_run (body : jsval) (up : Upstream) key quote wrap shared dynamic fee :
  field body "userPublicKey" = VStr key -> (32 <= String.length key)%nat ->
  field body "quoteResponse" = VObj quote ->
  flag_of true (field body "wrapAndUnwrapSol") = Some wrap ->
  flag_of true (field body "useSharedAccounts") = Some shared ->
  flag_of true (field body "dynamicComputeUnitLimit") = Some dynamic ->
  fee_of (field body "prioritizationFeeLamports") = Some fee ->
  let call :=
    swap_call cfg (swap_payload key (without_proto quote) wrap shared dynamic fee) in
  post_api_swap cfg body up =
  (match fst (fetchJSON call up) with
   | Normal js =>
       match get js "swapTransaction" with
       | Normal tx => swap_ok tx
       | Throw e => failure 400 (error_text e)
       end
   | Throw e => failure 400 (error_text e)
   end, [call]).
Proof.
  intros Hk Lk Hq Hw Hs Hdy Hfee.
  apply swap_run. apply SwapBody_valid.
  exists key, quote, wrap, shared, dynamic, fee. repeat split; assumption.
Qed.

(** C7, as the code has it: a swap answered 200 carries exactly
    [ok: true] and the [swapTransaction] field of the upstream payload,
    nothing else of it. A valid request whose upstream call is answered 2xx
    is answered 200 also when the payload has no such field, whether it is
    an object, another JSON value or a body that is not JSON: the value is
    then undefined, which the serialization leaves out. The exception is
    the payload [null]: reading the field of it throws, and the request is
    answered 400 with the text of that error. *)
Theorem swap_success_shape (body : jsval) (up : Upstream) :
  (forall res calls,
     post_api_swap cfg body up = (res, calls) -> status res = 200 ->
     exists call st json,
       calls = [call] /\ up call = Responds st json /\ ok st = true /\
       res = swap_ok (field (default (VObj []) json) "swapTransaction")) /\
  (forall key quote wrap shared dynamic fee st json,
     field body "userPublicKey" = VStr key -> (32 <= String.length key)%nat ->
     field body "quoteResponse" = VObj quote ->
     flag_of true (field body "wrapAndUnwrapSol") = Some wrap ->
     flag_of true (field body "useSharedAccounts") = Some shared ->
     flag_of true (field body "dynamicComputeUnitLimit") = Some dynamic ->
     fee_of (field body "prioritizationFeeLamports") = Some fee ->
     let call :=
       swap_call cfg (swap_payload key (without_proto quote) wrap shared dynamic fee) in
     up call = Responds st json -> ok st = true ->
     let js := default (VObj []) json in
     (js <> VNull -> js <> VUndef ->
      post_api_swap cfg body up = (swap_ok (field js "swapTransaction"), [call]) /\
      (field js "swapTransaction" = VUndef ->
       serialized_keys (VObj [("ok", VBool true);
                              ("swapTransaction", field js "swapTransaction")])
       = ["ok"])) /\
     (js = VNull ->
      post_api_swap cfg body up =
      (failure 400 (error_text (TypeError (ReadOfNullish VNull "swapTransaction"))),
       [call]))).
Proof.
  split.
  - intros res calls Hrun Hst.
    destruct (Zod_parse SwapBody body) as [data|e] eqn:Hp.
    2: { rewrite (swap_validation_error _ up _ Hp) in Hrun.
         injection Hrun as <- <-. discriminate Hst. }
    pose proof Hp as Hv.
    apply SwapBody_valid in Hv
      as (key & quote & wrap & shared & dynamic & fee & _ & _ & _ & _ & _ & _ & _ & ->).
    rewrite (swap_run _ up _ _ _ _ _ _ Hp) in Hrun.
    set (call := swap_call cfg _) in *.
    destruct (fetchJSON call up) as [[js|e] t] eqn:Hf; cbn [fst] in Hrun.
    2: { injection Hrun as <- <-. discriminate Hst. }
    destruct (get js "swapTransaction") as [tx|e] eqn:Hg.
    2: { injection Hrun as <- <-. discriminate Hst. }
    injection Hrun as <- <-.
    destruct (fetchJSON_normal _ _ _ _ Hf) as (st & json & Hup & Hok & ->).
    exists call, st, json. repeat split; try assumption.
    rewrite (get_field _ _ _ Hg). reflexivity.
  - intros key quote wrap shared dynamic fee st json Hk Lk Hq Hw Hs Hdy Hfee call
           Hup Hok js.
    pose proof (swap_valid_run body up key quote wrap shared dynamic fee
                  Hk Lk Hq Hw Hs Hdy Hfee) as Hrun.
    cbn zeta in Hrun. fold call in Hrun.
    rewrite (fetchJSON_success _ _ _ _ Hup Hok) in Hrun. cbn [fst] in Hrun. fold js in Hrun.
    split.
    + intros Hnull Hundef. split.
      * rewrite Hrun. destruct js; try contradiction; reflexivity.
      * intros ->. reflexivity.
    + intros Hnull. rewrite Hrun, Hnull. reflexivity.
Qed.

(** ** The token list *)

Lemma project_token_record (t : jsval) :
  is_record t -> project_token t = Normal (projection t).
Proof. intros [props ->]. reflexivity. Qed.

Lemma map_project_records (records : list jsval) :
  Forall is_record records ->
  map_completion project_token records = Normal (map projection records).
Proof.
  induction 1 as [|t rest Ht _ IH]; simpl; [reflexivity|].
  rewrite (project_token_record _ Ht). simpl. rewrite IH. reflexivity.
Qed.

Lemma tokens_run (up : Upstream) :
  get_api_tokens up =
  (match fst (fetchJSON tokens_call up) with
   | Normal list =>
       match array_map list project_token with
       | Normal small =>
           {| status := 200;
              body := Json (VObj [("ok", VBool true); ("tokens", small)]) |}
       | Throw e => failure 500 (error_text e)
       end
   | Throw e => failure 500 (error_text e)
   end, [tokens_call]).
Proof.
  unfold get_api_tokens, try_catch, tokens_try, bind, lift, ret.
  pose proof (fetchJSON_calls tokens_call up) as Hc.
  destruct (fetchJSON tokens_call up) as [[list|e] t]; simpl in Hc; subst t; [|reflexivity].
  cbn [fst]. destruct (array_map list project_token); reflexivity.
Qed.

(** C4: every upstream record, whatever other fields it carries, is
    answered as an object of exactly the five fields [address], [symbol],
    [name], [decimals], [tags], each read from the record, [tags] being the
    empty array when the record has none. *)
Theorem tokens_projection (up : Upstream) (st : Z) (records : list jsval) :
  up tokens_call = Responds st (Some (VArr records)) ->
  ok st = true ->
  Forall is_record records ->
  get_api_tokens up =
    ({| status := 200;
        body := Json (VObj [("ok", VBool true);
                            ("tokens", VArr (map projection records))]) |},
     [tokens_call]) /\
  forall props,
    exists address symbol name decimals tags,
      projection (VObj props) =
        VObj [ ("address", address); ("symbol", symbol); ("name", name);
               ("decimals", decimals); ("tags", tags) ] /\
      address = default VUndef (lookup_prop "address" props) /\
      symbol = default VUndef (lookup_prop "symbol" props) /\
      name = default VUndef (lookup_prop "name" props) /\
      decimals = default VUndef (lookup_prop "decimals" props) /\
      (lookup_prop "tags" props = None -> tags = VArr []) /\
      (forall v, lookup_prop "tags" props = Some v -> truthy v = true -> tags = v) /\
      incl (serialized_keys (projection (VObj props)))
           ["address"; "symbol"; "name"; "decimals"; "tags"] /\
      In "tags" (serialized_keys (projection (VObj props))).
Proof.
  intros Hup Hok Hrec. split.
  - rewrite tokens_run. rewrite (fetchJSON_success _ _ _ _ Hup Hok). cbn [fst].
    simpl. rewrite (map_project_records _ Hrec). reflexivity.
  - intros props. unfold projection. do 5 eexists.
    split; [reflexivity|]. repeat split.
    + intros H. simpl. rewrite H. reflexivity.
    + intros v H Hv. simpl. rewrite H. simpl. rewrite Hv. reflexivity.
    + unfold serialized_keys, keys. intros k Hk.
      apply in_map_iff in Hk as ([k' v] & <- & Hin).
      apply filter_In in Hin as [Hin _]. simpl in Hin. simpl.
      intuition congruence.
    + unfold serialized_keys, keys. apply in_map_iff.
      eexists ("tags", _). split; [reflexivity|].
      apply filter_In. split; [simpl; tauto|].
      simpl. destruct (truthy _) eqn:Ht; [|reflexivity].
      destruct (default VUndef (lookup_prop "tags" props)); try reflexivity.
      discriminate Ht.
Qed.

(** ** Errors of a route *)


(** C5: a [slippageBps] that is present and is not an integer from 1 to
    1000 makes the quote route answer 400; an absent one is validated as
    the default 50, which is the value of every valid body without the
    field, and such a body is valid as soon as its other fields are. *)
Theorem quote_slippage (body : jsval) (up : Upstream) :
  (field body "slippageBps" <> VUndef ->
   (forall n, field body "slippageBps" = VNum (Int n) -> n < 1 \/ 1000 < n) ->
   exists issues,
     (exists code, In (mk_issue ["slippageBps"] code) issues) /\
     post_api_quote cfg body up = (failure 400 (ZodError_message issues), [])) /\
  (field body "slippageBps" = VUndef ->
   zparse (z_default (z_number [int; min 1; max 1000]) (VNum (Int 50)))
          ["slippageBps"] (field body "slippageBps") = (VNum (Int 50), []) /\
   (forall data, Zod_parse QuoteBody body = Normal data ->
                 field data "slippageBps" = VNum (Int 50)) /\
   (forall a b c d,
      field body "inputMint" = VStr a -> (8 <= String.length a)%nat ->
      field body "outputMint" = VStr b -> (8 <= String.length b)%nat ->
      field body "amount" = VStr c -> digit_string (VStr c) ->
      flag_of false (field body "onlyDirectRoutes") = Some d ->
      Zod_parse QuoteBody body =
        Normal (VObj [ ("inputMint", VStr a); ("outputMint", VStr b); ("amount", VStr c);
                       ("slippageBps", VNum (Int 50)); ("onlyDirectRoutes", VBool d) ]))).
Proof.
  split.
  - intros Hpresent Hout.
    destruct body as [| | | | |items|props]; try (exfalso; apply Hpresent; reflexivity).
    assert (Hi : exists code,
               In (mk_issue ["slippageBps"] code)
                  (snd (zparse (z_default (z_number [int; min 1; max 1000]) (VNum (Int 50)))
                               ["slippageBps"] (field (VObj props) "slippageBps")))).
    { destruct (field (VObj props) "slippageBps") as [| | |[n|m e|neg]| | |] eqn:Hf;
        try (exists invalid_type; left; reflexivity).
      - exfalso. apply Hpresent. reflexivity.
      - simpl. destruct (Hout n eq_refl) as [Hlo|Hhi].
        + exists too_small. assert (E : (n <? 1) = true) by lia. rewrite E. left. reflexivity.
        + exists too_big. assert (E : (1000 <? n) = true) by lia. rewrite E.
          destruct (n <? 1); [right; left; reflexivity | left; reflexivity]. }
    destruct Hi as [code Hi].
    destruct (quote_issue (VObj props) up (mk_issue ["slippageBps"] code))
      as (issues & Hin & Hq).
    + eapply (object_issue_in _ [] props "slippageBps");
        [right; right; right; left; reflexivity | exact Hi].
    + exists issues. split; [exists code; exact Hin | exact Hq].
  - intros Habsent. split; [|split].
    + rewrite Habsent. reflexivity.
    + intros data Hp.
      apply QuoteBody_valid in Hp
        as (a & b & c & n & d & _ & _ & _ & _ & _ & _ & Hn & _ & ->).
      rewrite Habsent in Hn. injection Hn as <-. reflexivity.
    + intros a b c d Ha La Hb Lb Hc Hd Hfl.
      apply QuoteBody_valid. exists a, b, c, 50, d.
      repeat split; try assumption.
      * apply re_digits_spec. exact Hd.
      * rewrite Habsent. reflexivity.
Qed.

(** ** Origin check *)

Lemma existsb_eqb_In (o : string) (l : list string) :
  existsb (String.eqb o) l = true <-> In o l.
Proof.
  rewrite existsb_exists. split.
  - intros (x & Hx & He). apply String.eqb_eq in He. subst. exact Hx.
  - intros H. exists o. split; [exact H | apply String.eqb_refl].
Qed.

Lemma cors_origin_refuses (o : string) :
  o <> "" -> ~ In o (allowedOrigins cfg) ->
  cors_origin cfg (Some o) = Some (mk_error "Error" "CORS: origin not allowed").
Proof.
  intros Hne Hnot. unfold cors_origin. simpl.
  destruct (String.eqb_spec o ""); [contradiction|]. simpl.
  destruct (existsb (String.eqb o) (allowedOrigins cfg)) eqn:E; [|reflexivity].
  apply existsb_eqb_In in E. contradiction.
Qed.

Lemma cors_origin_admits (origin : option string) :
  cors_origin cfg origin = None <->
  origin = None \/ origin = Some "" \/ exists o, origin = Some o /\ In o (allowedOrigins cfg).
Proof.
  unfold cors_origin. destruct origin as [o|]; simpl.
  - destruct (String.eqb_spec o "") as [->|Hne]; simpl.
    + split; [intros _; right; left; reflexivity | reflexivity].
    + destruct (existsb (String.eqb o) (allowedOrigins cfg)) eqn:E.
      * apply existsb_eqb_In in E. split; [|reflexivity].
        intros _. right. right. exists o. split; [reflexivity | exact E].
      * split; [discriminate|]. intros [H|[H|(o' & H & Hin)]]; try discriminate.
        -- injection H as ->. contradiction.
        -- injection H as <-. apply existsb_eqb_In in Hin. congruence.
  - split; [intros _; left; reflexivity | reflexivity].
Qed.

(** The allow-list read from the environment is never empty and never
    holds the empty string. *)
Lemma allowedOrigins_loaded (env : Env) :
  allowedOrigins (load_config env) <> [] /\ ~ In "" (allowedOrigins (load_config env)).
Proof.
  unfold load_config. simpl.
  destruct (List.filter non_empty _) as [|o l] eqn:E.
  - split; [discriminate|]. intros [H|[]]. discriminate.
  - split; [discriminate|]. rewrite <- E. intros H.
    apply filter_In in H as [_ H]. discriminate.
Qed.

(** C6, as the code has it: a request whose body the parser accepted and
    whose [Origin] header is a non-empty string outside the allow-list is
    answered 403 with [ok: false] and the error text, whatever its method
    and path; no route runs: no outbound call is made and the rate limiter
    does not count the request. *)
Theorem disallowed_origin_403 (store : gmap string (Z * Z)) (req : request)
    (up : Upstream) (parsed : jsval) (o : string) :
  req_body req = Normal parsed ->
  req_origin req = Some o ->
  o <> "" ->
  ~ In o (allowedOrigins cfg) ->
  app cfg store req up = (failure 403 "CORS: origin not allowed", store, []).
Proof.
  intros Hb Ho Hne Hnot. unfold app. rewrite Hb, Ho.
  rewrite (cors_origin_refuses _ Hne Hnot). reflexivity.
Qed.

(** ** Rate limiter *)

Lemma rate_limit_open (store : gmap string (Z * Z)) key now :
  (store !! key = None \/ exists h r, store !! key = Some (h, r) /\ r <= now) ->
  rate_limit store key now = (false, <[key := (1, now + windowMs)]> store).
Proof.
  unfold rate_limit. intros [->|(h & r & -> & Hr)]; [reflexivity|].
  assert (E : (r <=? now) = true) by lia. rewrite E. reflexivity.
Qed.

Lemma rate_limit_within (store : gmap string (Z * Z)) key now h r :
  store !! key = Some (h, r) -> now < r ->
  rate_limit store key now = (max_hits <? h + 1, <[key := (h + 1, r)]> store).
Proof.
  unfold rate_limit. intros -> Hr.
  assert (E : (r <=? now) = false) by lia. rewrite E. reflexivity.
Qed.

Lemma rate_limit_other (store : gmap string (Z * Z)) key now other :
  key <> other -> snd (rate_limit store key now) !! other = store !! other.
Proof.
  intros Hne. unfold rate_limit.
  destruct (match store !! key with Some (h, r) => _ | None => _ end) as [h r].
  simpl. apply lookup_insert_ne. exact Hne.
Qed.

Lemma app_reaches (store : gmap string (Z * Z)) req up :
  reaches_limiter cfg req = true ->
  app cfg store req up =
  let limiter := rate_limit store (req_ip req) (req_time req) in
  let answer := if fst limiter then (too_many, []) else handle cfg req up in
  (fst answer, snd limiter, snd answer).
Proof.
  unfold reaches_limiter, app, handle.
  destruct (req_body req) as [parsed|e]; [|discriminate].
  destruct (cors_origin cfg (req_origin req)); [discriminate|].
  destruct (req_method req); try discriminate; intros ->;
    destruct (rate_limit store (req_ip req) (req_time req)) as [[] store'];
    simpl; try reflexivity; destruct (router cfg req parsed up); reflexivity.
Qed.

Lemma app_skips (store : gmap string (Z * Z)) req up :
  reaches_limiter cfg req = false -> (app cfg store req up).1.2 = store.
Proof.
  unfold reaches_limiter, app.
  destruct (req_body req) as [parsed|e]; [|reflexivity].
  destruct (cors_origin cfg (req_origin req)); [reflexivity|].
  destruct (req_method req); try reflexivity; intros ->;
    destruct (router cfg req parsed up); reflexivity.
Qed.

Lemma app_not_counted (store : gmap string (Z * Z)) req up ip :
  counted cfg ip req = false -> (app cfg store req up).1.2 !! ip = store !! ip.
Proof.
  unfold counted. destruct (reaches_limiter cfg req) eqn:Hr; simpl.
  - intros Hip. rewrite (app_reaches _ _ _ Hr). simpl.
    apply rate_limit_other. intros E. rewrite E, String.eqb_refl in Hip. discriminate.
  - intros _. rewrite (app_skips _ _ _ Hr). reflexivity.
Qed.

Lemma serve_within (ip : string) (up : Upstream) (reqs : list request) :
  forall (store : gmap string (Z * Z)) (h r : Z),
    store !! ip = Some (h, r) ->
    Forall (fun q => counted cfg ip q = true -> req_time q < r) reqs ->
    forall (i : nat) (q : request),
      reqs !! i = Some q -> counted cfg ip q = true ->
      serve cfg store reqs up !! i =
      Some (if max_hits <? h + 1 + Z.of_nat (length (List.filter (counted cfg ip) (take i reqs)))
            then (too_many, []) else handle cfg q up).
Proof.
  induction reqs as [|q0 rest IH]; intros store h r Hs Hall i q Hi Hq.
  - destruct i; discriminate.
  - inversion Hall as [|? ? H0 Hrest]; subst.
    destruct i as [|i]; simpl in Hi.
    + injection Hi as ->. simpl.
      unfold counted in Hq. apply andb_true_iff in Hq as [Hr Hip].
      apply String.eqb_eq in Hip.
      rewrite (app_reaches _ _ _ Hr). cbn zeta. rewrite Hip.
      rewrite (rate_limit_within _ _ _ _ _ Hs);
        [|apply H0; unfold counted; rewrite Hr, Hip, String.eqb_refl; reflexivity].
      cbn [fst snd]. rewrite Z.add_0_r.
      destruct (max_hits <? h + 1), (handle cfg q up); reflexivity.
    + simpl.
      destruct (app cfg store q0 up) as [[res store'] calls] eqn:Happ.
      rewrite lookup_cons_ne_0 by discriminate. simpl.
      destruct (counted cfg ip q0) eqn:H0c.
      * pose proof H0c as Hc0. unfold counted in Hc0.
        apply andb_true_iff in Hc0 as [Hr Hip]. apply String.eqb_eq in Hip.
        rewrite (app_reaches _ _ _ Hr) in Happ. cbn zeta in Happ. rewrite Hip in Happ.
        rewrite (rate_limit_within _ _ _ _ _ Hs) in Happ by (apply H0; reflexivity).
        cbn [fst snd] in Happ. injection Happ as _ <- _.
        rewrite (IH _ (h + 1) r (lookup_insert_eq _ _ _) Hrest i q Hi Hq).
        simpl length. replace (h + 1 + 1 + Z.of_nat (length (List.filter (counted cfg ip) (take i rest))))
          with (h + 1 + Z.of_nat (S (length (List.filter (counted cfg ip) (take i rest))))) by lia.
        reflexivity.
      * pose proof (app_not_counted store q0 up ip H0c) as Hst.
        rewrite Happ in Hst. simpl in Hst.
        rewrite (IH store' h r (eq_trans Hst Hs) Hrest i q Hi Hq). reflexivity.
Qed.

(** C9, as the code has it: on every path under the API prefix the
    limiter counts the requests of a client in a fixed window of 60000 ms,
    opened by a request that finds no open window; in an open window a
    request is answered by its route while the count stays within 120, the
    literal of the source under every configuration, and 429 beyond. *)
Theorem rate_limit_fixed_window (ip : string) (up : Upstream) :
  (forall store req,
     counted cfg ip req = true ->
     (store !! ip = None \/ exists h r, store !! ip = Some (h, r) /\ r <= req_time req) ->
     exists store',
       app cfg store req up = (fst (handle cfg req up), store', snd (handle cfg req up)) /\
       store' !! ip = Some (1, req_time req + 60000)) /\
  (forall reqs store h r,
     store !! ip = Some (h, r) ->
     Forall (fun q => counted cfg ip q = true -> req_time q < r) reqs ->
     forall i q,
       reqs !! i = Some q -> counted cfg ip q = true ->
       serve cfg store reqs up !! i =
       Some (if 120 <? h + 1 + Z.of_nat (length (List.filter (counted cfg ip) (take i reqs)))
             then ({| status := 429;
                      body := Text "Too many requests, please try again later." |}, [])
             else handle cfg q up)).
Proof.
  split.
  - intros store req Hc Hopen.
    unfold counted in Hc. apply andb_true_iff in Hc as [Hr Hip].
    apply String.eqb_eq in Hip.
    rewrite (app_reaches _ _ _ Hr). cbn zeta. rewrite Hip.
    rewrite (rate_limit_open _ _ _ Hopen). cbn [fst snd].
    eexists. split; [reflexivity|]. apply lookup_insert_eq.
  - intros reqs store h r Hs Hall i q Hi Hq.
    apply (serve_within ip up reqs store h r Hs Hall i q Hi Hq).
Qed.

(** ** The routes behind the filters *)

Lemma route_under_api (pattern path : string) :
  pattern = "/api/tokens" \/ pattern = "/api/quote" \/ pattern = "/api/swap" ->
  route_matches pattern path = true -> under_api path = true.
Proof.
  unfold route_matches, under_api.
  intros Hp H. apply orb_true_iff in H as [H|H];
    [|apply andb_true_iff in H as [_ H]];
    apply String.eqb_eq in H; rewrite H;
    destruct Hp as [-> | [-> | ->]]; reflexivity.
Qed.

Lemma router_quote (req : request) (parsed : jsval) :
  req_method req = POST -> route_matches "/api/quote" (req_path req) = true ->
  router cfg req parsed = post_api_quote cfg parsed.
Proof. unfold router. intros -> ->. reflexivity. Qed.

Lemma router_swap (req : request) (parsed : jsval) :
  req_method req = POST -> route_matches "/api/swap" (req_path req) = true ->
  router cfg req parsed = post_api_swap cfg parsed.
Proof.
  unfold router. intros -> H. rewrite H. simpl.
  destruct (route_matches "/api/quote" (req_path req)) eqn:E; [|reflexivity].
  unfold route_matches in *.
  apply orb_true_iff in H as [H|H];
    [|apply andb_true_iff in H as [_ H]];
    apply String.eqb_eq in H; rewrite H in E; discriminate.
Qed.

(** A quote request that the body parser, the origin check and the
    limiter let through is answered by the quote handler. *)
Lemma app_runs_quote (store : gmap string (Z * Z)) (req : request) (up : Upstream)
    (parsed : jsval) :
  req_method req = POST -> route_matches "/api/quote" (req_path req) = true ->
  req_body req = Normal parsed ->
  cors_origin cfg (req_origin req) = None ->
  fst (rate_limit store (req_ip req) (req_time req)) = false ->
  app cfg store req up =
  (fst (post_api_quote cfg parsed up),
   snd (rate_limit store (req_ip req) (req_time req)),
   snd (post_api_quote cfg parsed up)).
Proof.
  intros Hm Hp Hb Ho Hl.
  assert (Hr : reaches_limiter cfg req = true).
  { unfold reaches_limiter. rewrite Hb, Ho, Hm.
    eapply route_under_api; [|exact Hp]. right. left. reflexivity. }
  rewrite (app_reaches _ _ _ Hr). cbn zeta. rewrite Hl.
  unfold handle. rewrite Hb, (router_quote _ _ Hm Hp). reflexivity.
Qed.

(** Whatever the filters decide, a quote request with a bad [amount]
    leaves no outbound call behind. *)
Lemma bad_amount_never_calls (store : gmap string (Z * Z)) (req : request)
    (up : Upstream) (parsed : jsval) :
  req_method req = POST -> route_matches "/api/quote" (req_path req) = true ->
  req_body req = Normal parsed ->
  ~ digit_string (field parsed "amount") ->
  snd (app cfg store req up) = [].
Proof.
  intros Hm Hp Hb Hbad. unfold app. rewrite Hb.
  destruct (cors_origin cfg (req_origin req)); [reflexivity|]. rewrite Hm.
  destruct (if under_api (req_path req) then _ else _) as [[] store']; [reflexivity|].
  rewrite (router_quote _ _ Hm Hp).
  destruct (bad_amount_answer parsed up Hbad) as (issues & Hq).
  rewrite Hq. reflexivity.
Qed.

End Properties.

(** * Further properties of the service *)

Section Coverage.
Context `{RT : Runtime}.
Variable cfg : Config.

(** ** Reading the allow-list *)

Lemma split_comma_cons (s : string) : exists first others, split_comma s = first :: others.
Proof.
  induction s as [|c s (first & others & IH)]; simpl.
  - eexists _, _. reflexivity.
  - destruct (Ascii.eqb c ","); [eexists _, _; reflexivity|].
    rewrite IH. eexists _, _. reflexivity.
Qed.

Lemma split_comma_no_comma (s piece : string) :
  In piece (split_comma s) -> has_comma piece = false.
Proof.
  revert piece. induction s as [|c s IH]; simpl; intros piece H.
  - destruct H as [<-|[]]. reflexivity.
  - destruct (Ascii.eqb c ",") eqn:Ec.
    + destruct H as [<-|H]; [reflexivity | apply IH; exact H].
    + destruct (split_comma_cons s) as (first & others & Hs). rewrite Hs in *.
      destruct H as [<-|H].
      * simpl. rewrite Ec. apply IH. left. reflexivity.
      * apply IH. right. exact H.
Qed.

Lemma trim_start_comma (s : string) : has_comma (trim_start s) = true -> has_comma s = true.
Proof.
  induction s as [|c s IH]; simpl; [discriminate|].
  destruct (is_space c); [|exact (fun H => H)].
  intros H. rewrite (IH H). apply orb_true_r.
Qed.

Lemma trim_end_comma (s : string) : has_comma (trim_end s) = true -> has_comma s = true.
Proof.
  induction s as [|c s IH]; simpl; [discriminate|].
  destruct (trim_end s) as [|c' rest'] eqn:E.
  - destruct (is_space c); simpl; [discriminate|].
    rewrite orb_false_r. intros ->. reflexivity.
  - simpl in *. intros H. apply orb_true_iff in H as [->|H]; [reflexivity|].
    rewrite (IH H). apply orb_true_r.
Qed.

Lemma trim_no_comma (s : string) : has_comma s = false -> has_comma (trim s) = false.
Proof.
  intros H. unfold trim. destruct (has_comma (trim_end (trim_start s))) eqn:E; [|reflexivity].
  apply trim_end_comma, trim_start_comma in E. congruence.
Qed.

Lemma trim_start_not_blank (s : string) : starts_blank (trim_start s) = false.
Proof.
  induction s as [|c s IH]; simpl; [reflexivity|].
  destruct (is_space c) eqn:E; [exact IH | simpl; exact E].
Qed.

Lemma trim_end_keeps_start (s : string) :
  starts_blank s = false -> starts_blank (trim_end s) = false.
Proof.
  destruct s as [|c s]; simpl; [reflexivity|]. intros E.
  destruct (trim_end s); [rewrite E|]; simpl; exact E.
Qed.

Lemma trim_end_not_blank (s : string) : ends_blank (trim_end s) = false.
Proof.
  induction s as [|c s IH]; simpl; [reflexivity|].
  destruct (trim_end s) as [|c' rest'] eqn:E.
  - destruct (is_space c) eqn:Ec; simpl; [reflexivity | exact Ec].
  - exact IH.
Qed.

Lemma trim_start_fixed (s : string) : starts_blank s = false -> trim_start s = s.
Proof. destruct s as [|c s]; simpl; [reflexivity|]. intros ->. reflexivity. Qed.

Lemma trim_end_fixed (s : string) : ends_blank s = false -> trim_end s = s.
Proof.
  induction s as [|c s IH]; simpl; [reflexivity|].
  destruct s as [|c' s'].
  - simpl. intros ->. reflexivity.
  - intros H. rewrite (IH H). reflexivity.
Qed.

Lemma trim_trimmed (s : string) :
  starts_blank (trim s) = false /\ ends_blank (trim s) = false /\ trim (trim s) = trim s.
Proof.
  assert (Hs : starts_blank (trim s) = false)
    by (apply trim_end_keeps_start, trim_start_not_blank).
  assert (He : ends_blank (trim s) = false) by apply trim_end_not_blank.
  repeat split; try assumption.
  unfold trim at 1. rewrite (trim_start_fixed _ Hs). apply trim_end_fixed. exact He.
Qed.

Lemma allow_list_entries_aux (env : Env) :
  allowedOrigins (load_config env) <> [] /\
  ~ In "" (allowedOrigins (load_config env)) /\
  (forall piece, In piece (origin_pieces env) -> trim piece <> "" ->
                 In (trim piece) (allowedOrigins (load_config env))) /\
  ((forall piece, In piece (origin_pieces env) -> trim piece = "") ->
   allowedOrigins (load_config env) = ["https://zk-chan.fun"]) /\
  (forall o, In o (allowedOrigins (load_config env)) ->
             o = "https://zk-chan.fun" \/
             exists piece, In piece (origin_pieces env) /\ o = trim piece).
Proof.
  unfold load_config, origin_pieces. simpl.
  set (pieces := split_comma (env_or (env_CORS_ORIGINS env) "")).
  destruct (List.filter non_empty (map trim pieces)) as [|o l] eqn:E.
  - repeat split.
    + discriminate.
    + intros [H|[]]. discriminate.
    + intros piece Hin Hne. exfalso.
      assert (Hf : In (trim piece) (List.filter non_empty (map trim pieces))).
      { apply filter_In. split; [apply in_map; exact Hin|].
        destruct (trim piece); [contradiction | reflexivity]. }
      rewrite E in Hf. destruct Hf.
    + intros o [<-|[]]. left. reflexivity.
  - rewrite <- E. repeat split.
    + rewrite E. discriminate.
    + intros H. apply filter_In in H as [_ H]. discriminate.
    + intros piece Hin Hne. apply filter_In. split; [apply in_map; exact Hin|].
      destruct (trim piece); [contradiction | reflexivity].
    + intros Hblank. exfalso.
      assert (Hin : In o (List.filter non_empty (map trim pieces)))
        by (rewrite E; left; reflexivity).
      apply filter_In in Hin as [Hin Hne]. apply in_map_iff in Hin as (piece & <- & Hp).
      rewrite (Hblank piece Hp) in Hne. discriminate.
    + intros o' Hin. right. apply filter_In in Hin as [Hin _].
      apply in_map_iff in Hin as (piece & <- & Hp). exists piece. split; [exact Hp | reflexivity].
Qed.

(** X1: the allow-list is never empty and never holds the empty string;
    every piece of CORS_ORIGINS that is not blank is in it, trimmed; and
    when the variable is unset or has blank pieces only, the list is the
    one built-in origin. *)
Theorem allow_list_entries (env : Env) :
  allowedOrigins (load_config env) <> [] /\
  ~ In "" (allowedOrigins (load_config env)) /\
  (forall piece, In piece (origin_pieces env) -> trim piece <> "" ->
                 In (trim piece) (allowedOrigins (load_config env))) /\
  ((forall piece, In piece (origin_pieces env) -> trim piece = "") ->
   allowedOrigins (load_config env) = ["https://zk-chan.fun"]) /\
  (forall o, In o (allowedOrigins (load_config env)) ->
             o = "https://zk-chan.fun" \/
             exists piece, In piece (origin_pieces env) /\ o = trim piece).
Proof. exact (allow_list_entries_aux env). Qed.

(** X2: an entry of the allow-list holds no comma and has no white space
    at either end, whatever CORS_ORIGINS is. *)
Theorem allow_list_entries_clean (env : Env) (o : string) :
  In o (allowedOrigins (load_config env)) ->
  has_comma o = false /\ starts_blank o = false /\ ends_blank o = false /\ trim o = o.
Proof.
  intros Hin.
  destruct (proj2 (proj2 (proj2 (proj2 (allow_list_entries_aux env)))) o Hin)
    as [->|(piece & Hp & ->)].
  - repeat split.
  - split; [apply trim_no_comma, (split_comma_no_comma _ _ Hp)|].
    apply trim_trimmed.
Qed.

(** ** What the handlers answer *)

Lemma slippage_of_range (v : jsval) (n : Z) : slippage_of v = Some n -> 1 <= n <= 1000.
Proof.
  destruct v as [| | |[k|m e|neg]| | |]; simpl; try discriminate.
  - intros [= <-]. lia.
  - destruct (1 <=? k) eqn:E1; [|discriminate].
    destruct (k <=? 1000) eqn:E2; [|discriminate]. intros [= <-]. lia.
Qed.

(** X3: a valid quote body whose upstream call is answered 2xx gets 200
    with the upstream payload as it came (the empty object when the payload
    is not JSON); one call is made, to the quote endpoint of
    JUPITER_BASE, carrying the three required fields, the slippage in
    decimal (50 when absent) and the routing flag as text (false when
    absent). *)
Theorem quote_success (body : jsval) (up : Upstream) (a b c : string) (n : Z) (d : bool)
    (st : Z) (json : option jsval) :
  field body "inputMint" = VStr a -> (8 <= String.length a)%nat ->
  field body "outputMint" = VStr b -> (8 <= String.length b)%nat ->
  field body "amount" = VStr c -> digit_string (VStr c) ->
  slippage_of (field body "slippageBps") = Some n ->
  flag_of false (field body "onlyDirectRoutes") = Some d ->
  let call :=
    {| call_url := JUPITER_BASE cfg ++ "/v6/quote";
       call_params := [ ("inputMint", a); ("outputMint", b); ("amount", c);
                        ("slippageBps", decimal n);
                        ("onlyDirectRoutes", if d then "true" else "false") ];
       call_init := None |} in
  up call = Responds st json -> ok st = true ->
  post_api_quote cfg body up =
  ({| status := 200;
      body := Json (VObj [("ok", VBool true); ("quote", default (VObj []) json)]) |},
   [call]).
Proof.
  intros Ha La Hb Lb Hc Hd Hn Hfl call Hup Hok.
  assert (Hp : Zod_parse QuoteBody body =
               Normal (VObj [ ("inputMint", VStr a); ("outputMint", VStr b);
                              ("amount", VStr c); ("slippageBps", VNum (Int n));
                              ("onlyDirectRoutes", VBool d) ])).
  { apply QuoteBody_valid. exists a, b, c, n, d. repeat split; try assumption.
    apply re_digits_spec. exact Hd. }
  rewrite (quote_run cfg _ up _ _ _ _ _ Hp).
  assert (Hdec : Number_toString (Int n) = decimal n).
  { apply Number_toString_int. apply slippage_of_range in Hn. lia. }
  rewrite Hdec. unfold quote_call. fold call.
  rewrite (fetchJSON_success _ _ _ _ Hup Hok). reflexivity.
Qed.

(** X4: a valid swap body makes exactly one outbound call: a POST to the
    swap endpoint of JUPITER_BASE with a JSON content type, whose payload
    holds the quote object as received but for an own key [__proto__],
    which the schema drops, the public key, the three flags (true when
    absent) and the fee (0 when absent), and nothing else of the request
    body. *)
Theorem swap_forwards (body : jsval) (up : Upstream) (key : string)
    (quote : list (string * jsval)) (wrap shared dynamic : bool) (fee : Z) :
  field body "userPublicKey" = VStr key -> (32 <= String.length key)%nat ->
  field body "quoteResponse" = VObj quote ->
  flag_of true (field body "wrapAndUnwrapSol") = Some wrap ->
  flag_of true (field body "useSharedAccounts") = Some shared ->
  flag_of true (field body "dynamicComputeUnitLimit") = Some dynamic ->
  fee_of (field body "prioritizationFeeLamports") = Some fee ->
  snd (post_api_swap cfg body up) =
  [ {| call_url := JUPITER_BASE cfg ++ "/v6/swap";
       call_params := [];
       call_init :=
         Some {| init_method := "POST";
                 init_headers := [("Content-Type", "application/json")];
                 init_body :=
                   VObj [ ("quoteResponse",
                           VObj (List.filter
                                   (fun kv => negb (String.eqb (fst kv) "__proto__"))
                                   quote));
                          ("userPublicKey", VStr key);
                          ("wrapAndUnwrapSol", VBool wrap);
                          ("dynamicComputeUnitLimit", VBool dynamic);
                          ("prioritizationFeeLamports", VNum (Int fee));
                          ("useSharedAccounts", VBool shared) ] |} |} ].
Proof.
  intros Hk Lk Hq Hw Hs Hdy Hfee.
  rewrite (swap_valid_run cfg body up key quote wrap shared dynamic fee
             Hk Lk Hq Hw Hs Hdy Hfee).
  reflexivity.
Qed.

Lemma quote_answers (body : jsval) (up : Upstream) :
  (exists e, Zod_parse QuoteBody body = Throw e /\
             post_api_quote cfg body up = (failure 400 (error_text e), [])) \/
  (exists data call, Zod_parse QuoteBody body = Normal data /\
     snd (post_api_quote cfg body up) = [call] /\
     ((exists quote, fst (post_api_quote cfg body up) = quote_ok quote) \/
      (exists e, fst (post_api_quote cfg body up) = failure 400 (error_text e)))).
Proof.
  destruct (Zod_parse QuoteBody body) as [data|e] eqn:Hp.
  - right. pose proof Hp as Hv.
    apply QuoteBody_valid in Hv as (a & b & c & n & d & _ & _ & _ & _ & _ & _ & _ & _ & ->).
    eexists _, _. split; [reflexivity|].
    rewrite (quote_run cfg _ up _ _ _ _ _ Hp). simpl. split; [reflexivity|].
    destruct (fst (fetchJSON _ up)); [left | right]; eexists; reflexivity.
  - left. exists e. split; [reflexivity|]. apply quote_validation_error. exact Hp.
Qed.

Lemma swap_answers (body : jsval) (up : Upstream) :
  (exists e, Zod_parse SwapBody body = Throw e /\
             post_api_swap cfg body up = (failure 400 (error_text e), [])) \/
  (exists data call, Zod_parse SwapBody body = Normal data /\
     snd (post_api_swap cfg body up) = [call] /\
     ((exists tx, fst (post_api_swap cfg body up) = swap_ok tx) \/
      (exists e, fst (post_api_swap cfg body up) = failure 400 (error_text e)))).
Proof.
  destruct (Zod_parse SwapBody body) as [data|e] eqn:Hp.
  - right. pose proof Hp as Hv.
    apply SwapBody_valid in Hv
      as (key & quote & wrap & shared & dynamic & fee & _ & _ & _ & _ & _ & _ & _ & ->).
    eexists _, _. split; [reflexivity|].
    rewrite (swap_run cfg _ up _ _ _ _ _ _ Hp). simpl. split; [reflexivity|].
    destruct (fst (fetchJSON _ up)) as [js|e]; [|right; eexists; reflexivity].
    destruct (get js "swapTransaction"); [left | right]; eexists; reflexivity.
  - left. exists e. split; [reflexivity|]. apply swap_validation_error. exact Hp.
Qed.

Lemma tokens_answers (up : Upstream) :
  snd (get_api_tokens up) = [tokens_call] /\
  ((exists small, fst (get_api_tokens up) =
      {| status := 200; body := Json (VObj [("ok", VBool true); ("tokens", small)]) |}) \/
   (exists e, fst (get_api_tokens up) = failure 500 (error_text e))).
Proof.
  rewrite tokens_run. simpl. split; [reflexivity|].
  destruct (fst (fetchJSON tokens_call up)) as [list|e]; [|right; eexists; reflexivity].
  destruct (array_map list project_token); [left | right]; eexists; reflexivity.
Qed.

(** X5: the quote and swap routes answer 200 or 400 and nothing else, the
    token route 200 or 500; none makes more than one outbound call (no
    retry), the token route always makes one, and the quote and swap
    routes make none exactly when the body fails validation. *)
Theorem handlers_answer (body : jsval) (up : Upstream) :
  (status (fst (post_api_quote cfg body up)) = 200 \/
   status (fst (post_api_quote cfg body up)) = 400) /\
  (status (fst (post_api_swap cfg body up)) = 200 \/
   status (fst (post_api_swap cfg body up)) = 400) /\
  (status (fst (get_api_tokens up)) = 200 \/ status (fst (get_api_tokens up)) = 500) /\
  (length (snd (post_api_quote cfg body up)) <= 1)%nat /\
  (length (snd (post_api_swap cfg body up)) <= 1)%nat /\
  length (snd (get_api_tokens up)) = 1%nat /\
  (snd (post_api_quote cfg body up) = [] <-> exists e, Zod_parse QuoteBody body = Throw e) /\
  (snd (post_api_swap cfg body up) = [] <-> exists e, Zod_parse SwapBody body = Throw e).
Proof.
  destruct (quote_answers body up) as [(eq & Hpq & Hq)|(dq & cq & Hpq & Hcq & Hq)];
  destruct (swap_answers body up) as [(es & Hps & Hs)|(ds & cs & Hps & Hcs & Hs)];
  destruct (tokens_answers up) as [Hct Ht];
  repeat match goal with
         | H : _ \/ _ |- _ => destruct H
         | H : exists _, _ |- _ => destruct H
         end;
  repeat match goal with
         | H : fst ?x = _ |- _ => rewrite H
         | H : snd ?x = _ |- _ => rewrite H
         | H : ?x = (_, _) |- _ => rewrite H
         end;
  simpl; rewrite ?Hpq, ?Hps;
  repeat split; try tauto; try lia; try discriminate;
  try (intros; eexists; reflexivity);
  try (intros [e' He']; discriminate He').
Qed.

(** ** Schemas: unknown keys and optional fields *)

Lemma object_field_same (props props' : list (string * jsval)) path ks :
  lookup_prop (fst ks) props = lookup_prop (fst ks) props' ->
  object_field props path ks = object_field props' path ks.
Proof. unfold object_field, has_own. intros ->. reflexivity. Qed.

Lemma zparse_object_same (shape : list (string * zschema)) path props props' :
  (forall k, In k (map fst shape) -> lookup_prop k props = lookup_prop k props') ->
  zparse (z_object shape) path (VObj props) = zparse (z_object shape) path (VObj props').
Proof.
  intros H. rewrite !zparse_object.
  assert (E : forall ks, In ks shape ->
                object_field props path ks = object_field props' path ks).
  { intros ks Hin. apply object_field_same. apply H. apply in_map. exact Hin. }
  assert (E1 : map (fun ks => fst (object_field props path ks)) shape
               = map (fun ks => fst (object_field props' path ks)) shape)
    by (apply map_ext_in; intros ks Hin; rewrite (E ks Hin); reflexivity).
  assert (E2 : map (fun ks => snd (object_field props path ks)) shape
               = map (fun ks => snd (object_field props' path ks)) shape)
    by (apply map_ext_in; intros ks Hin; rewrite (E ks Hin); reflexivity).
  rewrite E1, E2. reflexivity.
Qed.

(** X6: an object schema looks at the keys of its shape only: two bodies
    that agree on those keys parse alike, so the quote and swap routes give
    the same answer and make the same call whatever other keys a body
    carries. *)
Theorem unknown_keys_ignored (props props' : list (string * jsval)) (up : Upstream) :
  ((forall k, In k ["inputMint"; "outputMint"; "amount"; "slippageBps"; "onlyDirectRoutes"] ->
              lookup_prop k props = lookup_prop k props') ->
   post_api_quote cfg (VObj props) up = post_api_quote cfg (VObj props') up) /\
  ((forall k, In k ["userPublicKey"; "quoteResponse"; "wrapAndUnwrapSol";
                    "useSharedAccounts"; "dynamicComputeUnitLimit";
                    "prioritizationFeeLamports"] ->
              lookup_prop k props = lookup_prop k props') ->
   post_api_swap cfg (VObj props) up = post_api_swap cfg (VObj props') up).
Proof.
  split; intros H.
  - unfold post_api_quote, quote_try, Zod_parse, QuoteBody.
    match goal with
    | |- context [zparse (z_object ?shape) [] (VObj props)] =>
        rewrite (zparse_object_same shape [] props props' H)
    end. reflexivity.
  - unfold post_api_swap, swap_try, Zod_parse, SwapBody.
    match goal with
    | |- context [zparse (z_object ?shape) [] (VObj props)] =>
        rewrite (zparse_object_same shape [] props props' H)
    end. reflexivity.
Qed.

Lemma object_field_rejects (shape : list (string * zschema)) props k sk :
  In (k, sk) shape ->
  snd (zparse sk [k] (field (VObj props) k)) <> [] ->
  exists i, In i (snd (zparse (z_object shape) [] (VObj props))).
Proof.
  intros Hk Hne.
  destruct (snd (zparse sk [k] (field (VObj props) k))) as [|i rest] eqn:E;
    [contradiction|].
  exists i. apply (object_issue_in shape [] props k sk i Hk).
  change ([] ++ [k])%list with [k]. rewrite E. left. reflexivity.
Qed.

Lemma flag_rejects (fallback : bool) (path : list string) (v : jsval) :
  v <> VUndef -> (forall b, v <> VBool b) ->
  snd (zparse (z_default (z_optional z_boolean) (VBool fallback)) path v) <> [].
Proof.
  intros Hu Hb. destruct v; simpl; try discriminate.
  - contradiction.
  - exfalso. eapply Hb. reflexivity.
Qed.

Lemma fee_rejects (path : list string) (v : jsval) :
  v <> VUndef -> (forall n, v = VNum (Int n) -> n < 0) ->
  snd (zparse (z_default (z_optional (z_number [int; min 0])) (VNum (Int 0))) path v) <> [].
Proof.
  intros Hu Hn. destruct v as [| | |[n|m e|neg]| | |]; simpl; try discriminate.
  - contradiction.
  - assert (E : (n <? 0) = true) by (specialize (Hn n eq_refl); lia).
    rewrite E. discriminate.
Qed.

Lemma record_rejects (path : list string) (v : jsval) :
  (forall props, v <> VObj props) -> snd (zparse (z_record z_any) path v) <> [].
Proof.
  intros H. destruct v; try (simpl; discriminate). exfalso. eapply H. reflexivity.
Qed.

(** X7: a quote body whose [onlyDirectRoutes] is present and is not a
    boolean is answered 400 and no outbound call is made. *)
Theorem quote_rejects_bad_flag (body : jsval) (up : Upstream) :
  field body "onlyDirectRoutes" <> VUndef ->
  (forall b, field body "onlyDirectRoutes" <> VBool b) ->
  exists issues,
    issues <> [] /\
    post_api_quote cfg body up = (failure 400 (ZodError_message issues), []).
Proof.
  intros Hu Hb.
  destruct body as [| | | | |items|props]; try (exfalso; apply Hu; reflexivity).
  destruct (object_field_rejects
              [ ("inputMint", z_string [min_length 8]);
                ("outputMint", z_string [min_length 8]);
                ("amount", z_string [regex "^\d+$" re_digits]);
                ("slippageBps", z_default (z_number [int; min 1; max 1000]) (VNum (Int 50)));
                ("onlyDirectRoutes", z_default (z_optional z_boolean) (VBool false)) ]
              props "onlyDirectRoutes" _
              ltac:(right; right; right; right; left; reflexivity)
              (flag_rejects false _ _ Hu Hb)) as [i Hi].
  destruct (quote_issue cfg (VObj props) up i Hi) as (issues & Hin & Hq).
  exists issues. split; [intros ->; destruct Hin | exact Hq].
Qed.

(** X8: a swap body is answered 400 without any outbound call when its
    [quoteResponse] is missing or is not an object, when one of its three
    flags is present and is not a boolean, or when its
    [prioritizationFeeLamports] is present and is not a non-negative
    integer. *)
Theorem swap_rejects_bad_fields (body : jsval) (up : Upstream) :
  (forall quote, field body "quoteResponse" <> VObj quote) \/
  (exists flag,
     In flag ["wrapAndUnwrapSol"; "useSharedAccounts"; "dynamicComputeUnitLimit"] /\
     field body flag <> VUndef /\ forall b, field body flag <> VBool b) \/
  (field body "prioritizationFeeLamports" <> VUndef /\
   forall n, field body "prioritizationFeeLamports" = VNum (Int n) -> n < 0) ->
  exists issues,
    issues <> [] /\
    post_api_swap cfg body up = (failure 400 (ZodError_message issues), []).
Proof.
  intros H.
  assert (Hi : exists i, In i (snd (zparse SwapBody [] body))).
  { destruct body as [| | | | |items|props].
    1-6: (exists (mk_issue [] invalid_type); apply body_not_object; discriminate).
    unfold SwapBody.
    destruct H as [Hq|[(flag & Hin & Hu & Hb)|[Hu Hn]]].
    - eapply (object_field_rejects _ props "quoteResponse");
        [right; left; reflexivity | apply record_rejects; exact Hq].
    - simpl in Hin. destruct Hin as [<-|[<-|[<-|[]]]].
      + eapply (object_field_rejects _ props "wrapAndUnwrapSol");
          [right; right; left; reflexivity | apply flag_rejects; assumption].
      + eapply (object_field_rejects _ props "useSharedAccounts");
          [right; right; right; left; reflexivity | apply flag_rejects; assumption].
      + eapply (object_field_rejects _ props "dynamicComputeUnitLimit");
          [right; right; right; right; left; reflexivity | apply flag_rejects; assumption].
    - eapply (object_field_rejects _ props "prioritizationFeeLamports");
        [right; right; right; right; right; left; reflexivity
        | apply fee_rejects; assumption]. }
  destruct Hi as [i Hi].
  destruct (swap_issue cfg body up i Hi) as (issues & Hin & Hq).
  exists issues. split; [intros ->; destruct Hin | exact Hq].
Qed.

(** ** Upstream payloads of an unexpected shape *)

Lemma project_token_nullish (t : jsval) :
  nullish t -> project_token t = Throw (TypeError (ReadOfNullish t "address")).
Proof. intros [->| ->]; reflexivity. Qed.

Lemma project_token_defined (t : jsval) :
  ~ nullish t -> exists small, project_token t = Normal small.
Proof.
  unfold nullish. intros H.
  destruct t; try (eexists; reflexivity); exfalso; apply H; tauto.
Qed.

Lemma map_project_nullish (items : list jsval) :
  (exists t, In t items /\ nullish t) ->
  exists t, In t items /\ nullish t /\
            map_completion project_token items
            = Throw (TypeError (ReadOfNullish t "address")).
Proof.
  induction items as [|x rest IH]; intros (t & Hin & Hn); [destruct Hin|].
  assert (Hx : nullish x \/ ~ nullish x)
    by (unfold nullish; destruct x; try (left; tauto); right; intros [H|H]; discriminate).
  destruct Hx as [Hx|Hx].
  - exists x. split; [left; reflexivity|]. split; [exact Hx|].
    simpl. rewrite (project_token_nullish _ Hx). reflexivity.
  - destruct Hin as [<-|Hin]; [contradiction|].
    destruct (IH (ex_intro _ t (conj Hin Hn))) as (t' & Hin' & Hn' & Hrun).
    exists t'. split; [right; exact Hin'|]. split; [exact Hn'|].
    simpl. destruct (project_token_defined _ Hx) as [small ->]. simpl.
    rewrite Hrun. reflexivity.
Qed.

(** X9: when the upstream answers 2xx to the token route with a payload
    that is not an array (an object, a body that is not JSON, [null]), or
    with an array holding a [null], the route answers 500 with the text of
    the [TypeError]; it does not answer 200. *)
Theorem tokens_unexpected_payload (up : Upstream) (st : Z) (json : option jsval) :
  up tokens_call = Responds st json ->
  ok st = true ->
  (forall items, default (VObj []) json = VArr items -> exists t, In t items /\ nullish t) ->
  exists f,
    get_api_tokens up = (failure 500 (error_text (TypeError f)), [tokens_call]) /\
    ((forall items, default (VObj []) json <> VArr items) ->
       (nullish (default (VObj []) json) /\
        f = ReadOfNullish (default (VObj []) json) "map") \/
       (~ nullish (default (VObj []) json) /\ f = NotAFunction "list.map")) /\
    (forall items, default (VObj []) json = VArr items ->
       exists t, In t items /\ nullish t /\ f = ReadOfNullish t "address").
Proof.
  intros Hup Hok Hbad. rewrite tokens_run.
  rewrite (fetchJSON_success _ _ _ _ Hup Hok). cbn [fst].
  destruct (default (VObj []) json) as [| | | | |items|props] eqn:Hjs; simpl;
    try (eexists; split; [reflexivity|]; split; [intros _ | discriminate];
         first [ left; split; [unfold nullish; tauto | reflexivity]
               | right; split; [intros [H|H]; discriminate | reflexivity] ]).
  destruct (map_project_nullish items (Hbad items eq_refl)) as (t & Hin & Hn & ->).
  simpl. eexists. split; [reflexivity|]. split.
  - intros H. exfalso. apply (H items). reflexivity.
  - intros items' [= <-]. exists t. repeat split; assumption.
Qed.

(** X10: a record whose [tags] is present but falsy ([null], [false], 0,
    the empty string) is answered with an empty [tags] array, like a record
    without the field. *)
Theorem tokens_falsy_tags (props : list (string * jsval)) (v : jsval) :
  lookup_prop "tags" props = Some v ->
  truthy v = false ->
  project_token (VObj props) =
  Normal (VObj [ ("address", default VUndef (lookup_prop "address" props));
                 ("symbol", default VUndef (lookup_prop "symbol" props));
                 ("name", default VUndef (lookup_prop "name" props));
                 ("decimals", default VUndef (lookup_prop "decimals" props));
                 ("tags", VArr []) ]).
Proof.
  intros Hl Ht. unfold project_token, js_or. simpl. rewrite Hl. simpl. rewrite Ht.
  reflexivity.
Qed.

(** X11: a valid swap request whose outbound call is answered 2xx with
    the JSON value [null] is answered 400, with the text of the [TypeError]
    that reading [swapTransaction] raises; the call has been made. *)
Theorem swap_null_payload (body : jsval) (up : Upstream) (key : string)
    (quote : list (string * jsval)) (wrap shared dynamic : bool) (fee : Z) (st : Z) :
  field body "userPublicKey" = VStr key -> (32 <= String.length key)%nat ->
  field body "quoteResponse" = VObj quote ->
  flag_of true (field body "wrapAndUnwrapSol") = Some wrap ->
  flag_of true (field body "useSharedAccounts") = Some shared ->
  flag_of true (field body "dynamicComputeUnitLimit") = Some dynamic ->
  fee_of (field body "prioritizationFeeLamports") = Some fee ->
  let call :=
    swap_call cfg (swap_payload key (without_proto quote) wrap shared dynamic fee) in
  up call = Responds st (Some VNull) -> ok st = true ->
  post_api_swap cfg body up =
  (failure 400 (error_text (TypeError (ReadOfNullish VNull "swapTransaction"))), [call]).
Proof.
  intros Hk Lk Hq Hw Hs Hdy Hfee call Hup Hok.
  rewrite (swap_valid_run cfg body up key quote wrap shared dynamic fee
             Hk Lk Hq Hw Hs Hdy Hfee).
  fold call. rewrite (fetchJSON_success _ _ _ _ Hup Hok). reflexivity.
Qed.

Lemma error_text_named (e : js_error) : err_name e <> "" -> error_text e <> "".
Proof.
  unfold error_text, Error_toString. intros Hn.
  destruct (String.eqb_spec (err_message e) "") as [Hm|Hm]; [|exact Hm].
  destruct (String.eqb_spec (err_name e) ""); [contradiction|].
  exact Hn.
Qed.

Lemma error_text_unnamed_message (e : js_error) :
  err_message e = "" -> err_name e <> "" -> error_text e = err_name e.
Proof.
  unfold error_text, Error_toString. intros -> Hn. simpl.
  destruct (String.eqb_spec (err_name e) ""); [contradiction | reflexivity].
Qed.

(** X12: whatever a response of a status outside 200-299 carries, the
    error the upstream client throws has a name, so the text a route
    reports for it, [String(err.message || err)], is not empty: when the
    message is empty (an [error] field such as an empty array), the text is
    the name. *)
Theorem non_success_text (call : OutboundCall) (up : Upstream) (st : Z)
    (json : option jsval) :
  up call = Responds st json ->
  ok st = false ->
  exists e,
    fetchJSON call up = (Throw e, [call]) /\
    (err_name e = "Error" \/ err_name e = "TypeError") /\
    error_text e <> "" /\
    (err_message e = "" -> error_text e = err_name e).
Proof.
  intros Hup Hok. rewrite (fetchJSON_failure _ _ _ _ Hup Hok).
  unfold new_Error.
  destruct (ToString (js_or (field (default (VObj []) json) "error")
                            (VStr ("Fetch failed: " ++ Number_toString (Int st)))))
    as [s0|e0] eqn:Hs; simpl.
  - eexists. split; [reflexivity|]. split; [left; reflexivity|]. split.
    + apply error_text_named. discriminate.
    + intros Hm. apply error_text_unnamed_message; [exact Hm | discriminate].
  - apply ToString_throws in Hs. subst e0.
    eexists. split; [reflexivity|]. split; [right; reflexivity|]. split.
    + apply error_text_named. discriminate.
    + intros Hm. apply error_text_unnamed_message; [exact Hm | discriminate].
Qed.

(** ** The chain around the routes *)

(** X13: a request whose body the JSON parser refuses never reaches the
    origin check, the limiter or a route: it is answered by the error
    middleware, 500 with the fixed text and none of the error's own, unless
    the error's string holds the letters CORS, in which case it is answered
    403 with the error's text. *)
Theorem refused_body_answer (store : gmap string (Z * Z)) (req : request)
    (up : Upstream) (err : js_error) :
  req_body req = Throw err ->
  (includes "CORS" (Error_toString err) = false ->
   app cfg store req up = (failure 500 "Internal server error", store, [])) /\
  (includes "CORS" (Error_toString err) = true ->
   app cfg store req up = (failure 403 (error_text err), store, [])).
Proof.
  intros Hb. unfold app, error_middleware. rewrite Hb.
  split; intros ->; reflexivity.
Qed.



(** X15: a request changes the limiter's entry of one client at most, its
    own, and only when it reached the limiter: its body parsed, its origin
    passed, it is no preflight and its path is under the API prefix. *)
Theorem limiter_entry_changes (store : gmap string (Z * Z)) (req : request)
    (up : Upstream) (ip : string) :
  (app cfg store req up).1.2 !! ip <> store !! ip ->
  req_ip req = ip /\ reaches_limiter cfg req = true.
Proof.
  intros Hch.
  destruct (counted cfg ip req) eqn:Hc.
  - unfold counted in Hc. apply andb_true_iff in Hc as [Hr Hip].
    apply String.eqb_eq in Hip. split; assumption.
  - exfalso. apply Hch. apply app_not_counted. exact Hc.
Qed.

Lemma route_matches_lower (pattern path : string) :
  route_matches pattern path = true ->
  lower path = pattern \/ lower path = pattern ++ "/".
Proof.
  unfold route_matches. intros H. apply orb_true_iff in H as [H|H].
  - left. apply String.eqb_eq. exact H.
  - right. apply andb_true_iff in H as [_ H]. apply String.eqb_eq. exact H.
Qed.


Lemma router_status (req : request) (parsed : jsval) (up : Upstream) :
  In (status (fst (router cfg req parsed up))) [200; 400; 404; 500].
Proof.
  unfold router.
  destruct (quote_answers parsed up) as [(eq & _ & Hq)|(dq & cq & _ & _ & Hq)];
  destruct (swap_answers parsed up) as [(es & _ & Hs)|(ds & cs & _ & _ & Hs)];
  destruct (tokens_answers up) as [_ Ht];
  repeat match goal with
         | H : _ \/ _ |- _ => destruct H
         | H : exists _, _ |- _ => destruct H
         end;
  repeat match goal with |- context [if ?c then _ else _] => destruct c end;
  repeat match goal with
         | H : fst ?x = _ |- _ => rewrite H
         | H : ?x = (_, _) |- _ => rewrite H
         end;
  simpl; tauto.
Qed.

(** X17: 403 is the answer of the origin check alone: the service answers
    403 only to a request whose [Origin] header is a non-empty string
    outside the allow-list, or whose body the parser refused with an error
    whose string holds the letters CORS. *)
Theorem forbidden_only_by_cors (store : gmap string (Z * Z)) (req : request)
    (up : Upstream) :
  status (app cfg store req up).1.1 = 403 ->
  (exists o, req_origin req = Some o /\ o <> "" /\ ~ In o (allowedOrigins cfg)) \/
  (exists err, req_body req = Throw err /\ includes "CORS" (Error_toString err) = true).
Proof.
  unfold app. destruct (req_body req) as [parsed|err] eqn:Hb.
  - destruct (cors_origin cfg (req_origin req)) as [e|] eqn:Ho.
    + intros _. left.
      destruct (req_origin req) as [o|] eqn:Hor.
      * exists o. split; [reflexivity|].
        assert (Hn : cors_origin cfg (Some o) <> None) by (rewrite Ho; discriminate).
        split; intros H; apply Hn; apply cors_origin_admits.
        -- right. left. rewrite H. reflexivity.
        -- right. right. exists o. split; [reflexivity | exact H].
      * discriminate Ho.
    + destruct (req_method req) eqn:Hm;
        try (destruct (if under_api (req_path req) then _ else _) as [[] store'];
             [discriminate|];
             pose proof (router_status req parsed up) as Hs;
             destruct (router cfg req parsed up) as [res calls]; simpl in *;
             intros E; rewrite E in Hs; intuition discriminate).
      discriminate.
  - unfold error_middleware. right. exists err. split; [reflexivity|].
    destruct (includes "CORS" (Error_toString err)); [reflexivity | discriminate].
Qed.

(** X18: 429 is the answer of the rate limiter alone, and only to a
    client over its limit: the request reached the limiter and the store
    held, for its client, a window still open with 120 hits or more. *)
Theorem too_many_only_over_limit (store : gmap string (Z * Z)) (req : request)
    (up : Upstream) :
  status (app cfg store req up).1.1 = 429 ->
  reaches_limiter cfg req = true /\
  exists h r, store !! req_ip req = Some (h, r) /\ req_time req < r /\ 120 <= h.
Proof.
  destruct (reaches_limiter cfg req) eqn:Hr.
  - rewrite (app_reaches cfg _ _ _ Hr). cbn zeta.
    destruct (fst (rate_limit store (req_ip req) (req_time req))) eqn:Hl.
    + intros _. split; [reflexivity|].
      unfold rate_limit, max_hits in Hl.
      destruct (store !! req_ip req) as [[h r]|]; [|discriminate Hl].
      destruct (r <=? req_time req) eqn:E; [discriminate Hl|].
      exists h, r. simpl in Hl. repeat split; lia.
    + unfold handle. destruct (req_body req) as [parsed|err] eqn:Hb.
      * pose proof (router_status req parsed up) as Hs. simpl.
        intros E. rewrite E in Hs. simpl in Hs. intuition discriminate.
      * unfold reaches_limiter in Hr. rewrite Hb in Hr. discriminate.
  - unfold reaches_limiter in Hr. unfold app.
    destruct (req_body req) as [parsed|err].
    + destruct (cors_origin cfg (req_origin req)) as [e|].
      * unfold error_middleware. simpl.
        destruct (includes "CORS" _); discriminate.
      * destruct (req_method req); try discriminate; rewrite Hr;
          pose proof (router_status req parsed up) as Hs;
          destruct (router cfg req parsed up) as [res calls]; simpl in *;
          intros E; rewrite E in Hs; intuition discriminate.
    + unfold error_middleware. destruct (includes "CORS" _); discriminate.
Qed.

Lemma router_tokens (req : request) (parsed : jsval) :
  is_get (req_method req) = true -> route_matches "/api/tokens" (req_path req) = true ->
  router cfg req parsed = get_api_tokens.
Proof.
  intros Hm Hp. unfold router. rewrite Hm. unfold route_matches.
  apply route_matches_lower in Hp as [Hp|Hp]; rewrite Hp; reflexivity.
Qed.

(** X19: an API request that passes the body parser and the origin check
    and that the limiter admits is counted by the limiter and answered by
    its route: a GET or HEAD of the token path by the token handler, a POST
    of the quote or swap path by the quote or swap handler on the parsed
    body. The response and the outbound calls are the handler's. *)
Theorem api_routes_behind_filters (store : gmap string (Z * Z)) (req : request)
    (up : Upstream) (parsed : jsval) :
  req_body req = Normal parsed ->
  cors_origin cfg (req_origin req) = None ->
  fst (rate_limit store (req_ip req) (req_time req)) = false ->
  let counted_store := snd (rate_limit store (req_ip req) (req_time req)) in
  (is_get (req_method req) = true -> route_matches "/api/tokens" (req_path req) = true ->
   app cfg store req up =
     (fst (get_api_tokens up), counted_store, snd (get_api_tokens up))) /\
  (req_method req = POST -> route_matches "/api/quote" (req_path req) = true ->
   app cfg store req up =
     (fst (post_api_quote cfg parsed up), counted_store,
      snd (post_api_quote cfg parsed up))) /\
  (req_method req = POST -> route_matches "/api/swap" (req_path req) = true ->
   app cfg store req up =
     (fst (post_api_swap cfg parsed up), counted_store,
      snd (post_api_swap cfg parsed up))).
Proof.
  intros Hb Ho Hl counted_store.
  assert (Hreach : forall pattern,
            pattern = "/api/tokens" \/ pattern = "/api/quote" \/ pattern = "/api/swap" ->
            route_matches pattern (req_path req) = true ->
            req_method req <> OPTIONS ->
            app cfg store req up =
              (fst (router cfg req parsed up), counted_store,
               snd (router cfg req parsed up))).
  { intros pattern Hpat Hp Hm.
    assert (Hr : reaches_limiter cfg req = true).
    { unfold reaches_limiter. rewrite Hb, Ho, (route_under_api _ _ Hpat Hp).
      destruct (req_method req); try reflexivity. contradiction. }
    rewrite (app_reaches cfg _ _ _ Hr). cbn zeta. rewrite Hl.
    unfold handle. rewrite Hb. reflexivity. }
  repeat split; intros Hm Hp.
  - rewrite (Hreach "/api/tokens") by (try tauto; intros E; rewrite E in Hm; discriminate).
    rewrite (router_tokens _ _ Hm Hp). reflexivity.
  - rewrite (Hreach "/api/quote") by (try tauto; rewrite Hm; discriminate).
    rewrite (router_quote cfg _ _ Hm Hp). reflexivity.
  - rewrite (Hreach "/api/swap") by (try tauto; rewrite Hm; discriminate).
    rewrite (router_swap cfg _ _ Hm Hp). reflexivity.
Qed.

End Coverage.



(** * The properties at concrete requests *)

Example quote_scenario :
  post_api_quote sample_config (quote_body "1000000")
    (answers (Responds 200 (Some (VObj [("outAmount", VStr "987")])))) =
  ({| status := 200;
      body := Json (VObj [("ok", VBool true);
                          ("quote", VObj [("outAmount", VStr "987")])]) |},
   [quote_call sample_config SOL USDC "1000000" "50" "false"]).
Proof. reflexivity. Qed.

Lemma quote_rejects_non_digit_amount_witness :
  exists issues,
    (In (mk_issue ["amount"] invalid_type) issues \/
     In (mk_issue ["amount"] invalid_string) issues \/
     In (mk_issue [] invalid_type) issues) /\
    post_api_quote sample_config (quote_body "10x") (answers TimesOut)
    = (failure 400 (ZodError_message issues), []).
Proof.
  apply (quote_rejects_non_digit_amount sample_config (quote_body "10x") (answers TimesOut)).
  intros H. apply re_digits_spec in H. vm_compute in H. discriminate H.
Defined.

Lemma quote_rejects_short_mint_witness :
  exists issues,
    (In (mk_issue ["inputMint"] too_small) issues \/
     In (mk_issue ["outputMint"] too_small) issues) /\
    post_api_quote sample_config
      (VObj [("inputMint", VStr "So111"); ("outputMint", VStr USDC); ("amount", VStr "5")])
      (answers TimesOut)
    = (failure 400 (ZodError_message issues), []).
Proof.
  apply (quote_rejects_short_mint sample_config _ _ "So111").
  - left. reflexivity.
  - vm_compute. lia.
Defined.

Lemma swap_rejects_short_key_witness :
  exists issues,
    In (mk_issue ["userPublicKey"] too_small) issues /\
    post_api_swap sample_config
      (VObj [("quoteResponse", VObj [("outAmount", VStr "987")]);
             ("userPublicKey", VStr "9xQeWvG816bUx9EPjHmaT23yvVM2ZW")])
      (answers TimesOut)
    = (failure 400 (ZodError_message issues), []).
Proof.
  apply (swap_rejects_short_key sample_config _ _ [("outAmount", VStr "987")]
           "9xQeWvG816bUx9EPjHmaT23yvVM2ZW").
  - reflexivity.
  - reflexivity.
  - vm_compute. lia.
Defined.

Lemma quote_slippage_witness :
  (exists issues,
     (exists code, In (mk_issue ["slippageBps"] code) issues) /\
     post_api_quote sample_config
       (VObj [("inputMint", VStr SOL); ("outputMint", VStr USDC); ("amount", VStr "5");
              ("slippageBps", VNum (Int 5000))])
       (answers TimesOut)
     = (failure 400 (ZodError_message issues), [])) /\
  Zod_parse QuoteBody (quote_body "5") =
    Normal (VObj [ ("inputMint", VStr SOL); ("outputMint", VStr USDC); ("amount", VStr "5");
                   ("slippageBps", VNum (Int 50)); ("onlyDirectRoutes", VBool false) ]).
Proof.
  split.
  - apply (proj1 (quote_slippage sample_config _ (answers TimesOut))).
    + discriminate.
    + intros n H. injection H as <-. right. lia.
  - apply (proj2 (proj2 (proj2 (quote_slippage sample_config (quote_body "5")
                                   (answers TimesOut)) eq_refl))).
    + reflexivity.
    + vm_compute. lia.
    + reflexivity.
    + vm_compute. lia.
    + reflexivity.
    + apply re_digits_spec. reflexivity.
    + reflexivity.
Defined.

Lemma tokens_projection_witness :
  get_api_tokens (answers (Responds 200 (Some (VArr upstream_records)))) =
  ({| status := 200;
      body := Json (VObj [ ("ok", VBool true);
        ("tokens", VArr [
           VObj [ ("address", VStr SOL); ("symbol", VStr "SOL"); ("name", VStr "Wrapped SOL");
                  ("decimals", VNum (Int 9)); ("tags", VArr []) ];
           VObj [ ("address", VStr USDC); ("symbol", VStr "USDC"); ("name", VStr "USD Coin");
                  ("decimals", VNum (Int 6)); ("tags", VArr [VStr "verified"]) ] ]) ]) |},
   [tokens_call]).
Proof.
  refine (proj1 (tokens_projection
                   (answers (Responds 200 (Some (VArr upstream_records))))
                   200 upstream_records eq_refl eq_refl _)).
  unfold upstream_records. repeat constructor; eexists; reflexivity.
Defined.

Lemma swap_success_shape_witness :
  post_api_swap sample_config swap_body
    (answers (Responds 200 (Some (VObj [("lastValidBlockHeight", VNum (Int 7))]))))
  = (swap_ok VUndef,
     [swap_call sample_config
        (swap_payload "9xQeWvG816bUx9EPjHmaT23yvVM2ZWbrrpZb9PusVFin"
           [("outAmount", VStr "987")] true true true 0)]) /\
  serialized_keys (VObj [("ok", VBool true); ("swapTransaction", VUndef)]) = ["ok"].
Proof.
  destruct (proj2 (swap_success_shape sample_config swap_body
                     (answers (Responds 200
                        (Some (VObj [("lastValidBlockHeight", VNum (Int 7))])))))
              "9xQeWvG816bUx9EPjHmaT23yvVM2ZWbrrpZb9PusVFin"
              [("outAmount", VStr "987")] true true true 0 200
              (Some (VObj [("lastValidBlockHeight", VNum (Int 7))]))
              eq_refl ltac:(vm_compute; lia) eq_refl eq_refl eq_refl eq_refl eq_refl
              eq_refl eq_refl) as [Hsome _].
  destruct (Hsome ltac:(discriminate) ltac:(discriminate)) as [H1 H2].
  split; [exact H1 | exact (H2 eq_refl)].
Defined.

(** C7 as stated fails: a valid swap whose upstream answers 200 with the
    JSON value [null], a payload without the field, is answered 400 with an
    error and not 200 with an absent value. *)
Lemma null_swap_payload_refused :
  field VNull "swapTransaction" = VUndef /\
  post_api_swap sample_config swap_body (answers (Responds 200 (Some VNull)))
  = (failure 400 "Cannot read properties of null (reading 'swapTransaction')",
     [swap_call sample_config
        (swap_payload "9xQeWvG816bUx9EPjHmaT23yvVM2ZWbrrpZb9PusVFin"
           [("outAmount", VStr "987")] true true true 0)]).
Proof. split; reflexivity. Qed.

Lemma fetchJSON_response_witness :
  exists e,
    fetchJSON tokens_call
      (answers (Responds 502 (Some (VObj [("error", VStr "Bad gateway")]))))
    = (Throw e, [tokens_call]) /\
    e = mk_error "Error" "Bad gateway".
Proof.
  destruct (proj2 (fetchJSON_response tokens_call
                     (answers (Responds 502 (Some (VObj [("error", VStr "Bad gateway")]))))
                     502 (Some (VObj [("error", VStr "Bad gateway")])) eq_refl) eq_refl)
    as (e & Hrun & Hstr & _).
  exists e. split; [exact Hrun|].
  apply (Hstr "Bad gateway"); [reflexivity | discriminate].
Defined.

(** C2 as stated fails: an [error] field that is present but empty is
    passed over for the generic message. *)
Lemma fetchJSON_empty_error_field :
  let payload := VObj [("error", VStr "")] in
  field payload "error" = VStr "" /\
  fetchJSON tokens_call (answers (Responds 500 (Some payload)))
  = (Throw (mk_error "Error" "Fetch failed: 500"), [tokens_call]).
Proof. split; reflexivity. Qed.



Lemma disallowed_origin_403_witness :
  app sample_config ∅
    (api_request POST "/api/quote" (Some "https://evil.example") 0 (quote_body "5"))
    (answers TimesOut)
  = (failure 403 "CORS: origin not allowed", ∅, []).
Proof.
  apply (disallowed_origin_403 sample_config ∅ _ _ (quote_body "5") "https://evil.example").
  - reflexivity.
  - reflexivity.
  - discriminate.
  - vm_compute. intros [H|[]]. discriminate H.
Defined.

(** C6 as stated fails: an [Origin] header that is present but empty is
    outside the allow-list and passes the check, so the route runs; and a
    body the parser refuses is answered 500 before the origin is looked
    at. *)
Lemma empty_origin_passes :
  ~ In "" (allowedOrigins sample_config) /\
  (let '(res, _, calls) :=
     app sample_config ∅ (api_request GET "/api/tokens" (Some "") 0 (VObj []))
       (answers (Responds 200 (Some (VArr [])))) in
   status res = 200 /\ calls = [tokens_call]) /\
  (let '(res, _, _) :=
     app sample_config ∅
       {| req_method := POST; req_path := "/api/quote";
          req_origin := Some "https://evil.example"; req_ip := "198.51.100.7";
          req_time := 0;
          req_body := Throw (mk_error "SyntaxError" "Unexpected end of JSON input") |}
       (answers TimesOut) in
   res = failure 500 "Internal server error").
Proof.
  split; [|split].
  - vm_compute. intros [H|[]]. discriminate H.
  - vm_compute. split; reflexivity.
  - vm_compute. reflexivity.
Qed.

Lemma rate_limit_fixed_window_witness :
  serve sample_config {["198.51.100.7" := (120, 60000)]}
    (burst [1000]) (answers (Responds 200 (Some (VArr [])))) !! 0%nat
  = Some ({| status := 429; body := Text "Too many requests, please try again later." |}, []).
Proof.
  refine (proj2 (rate_limit_fixed_window sample_config "198.51.100.7"
                   (answers (Responds 200 (Some (VArr [])))))
                (burst [1000]) {["198.51.100.7" := (120, 60000)]} 120 60000
                _ _ 0%nat _ eq_refl eq_refl).
  - reflexivity.
  - repeat constructor.
Defined.

(** C9 as stated fails: the window is not a sliding one. One request at
    time 0 opens a window; 119 more arrive at 59 s and 120 at 60 s, when a
    new window opens: the 239 requests of that one second all reach their
    route. And the maximum does not follow the configuration: with every
    variable of the environment set otherwise, the 120th request of a
    window still passes and the 121st is still refused. *)
Lemma window_does_not_slide :
  map (fun answer => status (fst answer))
      (serve sample_config ∅
         (burst (0 :: repeat 59000 119 ++ repeat 60000 120))
         (answers (Responds 200 (Some (VArr [])))))
  = repeat 200 240 /\
  map (fun answer => status (fst answer))
      (serve other_config {["198.51.100.7" := (119, 60000)]}
         (burst [1000; 1001])
         (answers (Responds 200 (Some (VArr [])))))
  = [200; 429].
Proof. split; vm_compute; reflexivity. Qed.

(** ** The further properties at concrete requests *)

Lemma allow_list_entries_witness :
  In "https://a.example" (allowedOrigins other_config) /\
  In "https://b.example" (allowedOrigins other_config).
Proof.
  split.
  - apply (proj1 (proj2 (proj2 (allow_list_entries
             {| env_APP_NAME := Some "swap proxy";
                env_JUPITER_BASE := Some "https://upstream.example";
                env_CORS_ORIGINS := Some "https://a.example, https://b.example" |})))
             "https://a.example").
    + vm_compute. left. reflexivity.
    + vm_compute. discriminate.
  - apply (proj1 (proj2 (proj2 (allow_list_entries
             {| env_APP_NAME := Some "swap proxy";
                env_JUPITER_BASE := Some "https://upstream.example";
                env_CORS_ORIGINS := Some "https://a.example, https://b.example" |})))
             " https://b.example").
    + vm_compute. right. left. reflexivity.
    + vm_compute. discriminate.
Defined.

Lemma allow_list_entries_clean_witness :
  has_comma "https://b.example" = false /\ starts_blank "https://b.example" = false /\
  ends_blank "https://b.example" = false /\ trim "https://b.example" = "https://b.example".
Proof.
  apply (allow_list_entries_clean
           {| env_APP_NAME := None; env_JUPITER_BASE := None;
              env_CORS_ORIGINS := Some "https://a.example, https://b.example" |}).
  vm_compute. right. left. reflexivity.
Defined.

Lemma quote_success_witness :
  post_api_quote sample_config
    (VObj [("inputMint", VStr SOL); ("outputMint", VStr USDC); ("amount", VStr "250");
           ("slippageBps", VNum (Int 100)); ("onlyDirectRoutes", VBool true)])
    (answers (Responds 200 None))
  = ({| status := 200; body := Json (VObj [("ok", VBool true); ("quote", VObj [])]) |},
     [quote_call sample_config SOL USDC "250" "100" "true"]).
Proof.
  apply (quote_success sample_config _ (answers (Responds 200 None))
           SOL USDC "250" 100 true 200 None).
  - reflexivity.
  - vm_compute. lia.
  - reflexivity.
  - vm_compute. lia.
  - reflexivity.
  - apply re_digits_spec. reflexivity.
  - reflexivity.
  - reflexivity.
  - reflexivity.
  - reflexivity.
Defined.

Lemma swap_forwards_witness :
  snd (post_api_swap sample_config
         (VObj [ ("userPublicKey", VStr "9xQeWvG816bUx9EPjHmaT23yvVM2ZWbrrpZb9PusVFin");
                 ("quoteResponse",
                  VObj [("outAmount", VStr "987"); ("__proto__", VObj [])]);
                 ("useSharedAccounts", VBool false); ("note", VStr "dropped") ])
         (answers TimesOut))
  = [ swap_call sample_config
        (swap_payload "9xQeWvG816bUx9EPjHmaT23yvVM2ZWbrrpZb9PusVFin"
           [("outAmount", VStr "987")] true false true 0) ].
Proof.
  exact (swap_forwards sample_config
           (VObj [ ("userPublicKey", VStr "9xQeWvG816bUx9EPjHmaT23yvVM2ZWbrrpZb9PusVFin");
                   ("quoteResponse",
                    VObj [("outAmount", VStr "987"); ("__proto__", VObj [])]);
                   ("useSharedAccounts", VBool false); ("note", VStr "dropped") ])
           (answers TimesOut)
           "9xQeWvG816bUx9EPjHmaT23yvVM2ZWbrrpZb9PusVFin"
           [("outAmount", VStr "987"); ("__proto__", VObj [])] true false true 0
           eq_refl ltac:(vm_compute; lia) eq_refl eq_refl eq_refl eq_refl eq_refl).
Defined.

Lemma unknown_keys_ignored_witness :
  post_api_quote sample_config
    (VObj [("referrer", VStr "app"); ("inputMint", VStr SOL); ("outputMint", VStr USDC);
           ("amount", VStr "5")])
    (answers TimesOut)
  = post_api_quote sample_config (quote_body "5") (answers TimesOut).
Proof.
  apply (proj1 (unknown_keys_ignored sample_config _ _ (answers TimesOut))).
  intros k Hk. simpl in Hk.
  destruct Hk as [<-|[<-|[<-|[<-|[<-|[]]]]]]; reflexivity.
Defined.

Lemma quote_rejects_bad_flag_witness :
  exists issues,
    issues <> [] /\
    post_api_quote sample_config
      (VObj [("inputMint", VStr SOL); ("outputMint", VStr USDC); ("amount", VStr "5");
             ("onlyDirectRoutes", VStr "yes")])
      (answers TimesOut)
    = (failure 400 (ZodError_message issues), []).
Proof.
  apply (quote_rejects_bad_flag sample_config).
  - discriminate.
  - intros b. discriminate.
Defined.

Lemma swap_rejects_bad_fields_witness :
  exists issues,
    issues <> [] /\
    post_api_swap sample_config
      (VObj [ ("userPublicKey", VStr "9xQeWvG816bUx9EPjHmaT23yvVM2ZWbrrpZb9PusVFin");
              ("quoteResponse", VObj []);
              ("prioritizationFeeLamports", VNum (Int (-1))) ])
      (answers TimesOut)
    = (failure 400 (ZodError_message issues), []).
Proof.
  apply (swap_rejects_bad_fields sample_config).
  right. right. split.
  - discriminate.
  - intros n H. injection H as <-. lia.
Defined.

Lemma tokens_unexpected_payload_witness :
  exists f,
    get_api_tokens (answers (Responds 200 None))
    = (failure 500 (error_text (TypeError f)), [tokens_call]) /\
    error_text (TypeError f) = "list.map is not a function".
Proof.
  destruct (tokens_unexpected_payload (answers (Responds 200 None)) 200 None
              eq_refl eq_refl) as (f & Hrun & Hf & _).
  - intros items H. discriminate H.
  - exists f. split; [exact Hrun|].
    destruct (Hf ltac:(intros items H; discriminate H)) as [[[H|H] _]|[_ ->]];
      [discriminate H | discriminate H | reflexivity].
Defined.

Lemma tokens_falsy_tags_witness :
  project_token (VObj [("address", VStr SOL); ("tags", VNull)]) =
  Normal (VObj [ ("address", VStr SOL); ("symbol", VUndef); ("name", VUndef);
                 ("decimals", VUndef); ("tags", VArr []) ]).
Proof.
  apply (tokens_falsy_tags [("address", VStr SOL); ("tags", VNull)] VNull);
    reflexivity.
Defined.

Lemma swap_null_payload_witness :
  post_api_swap sample_config swap_body (answers (Responds 200 (Some VNull)))
  = (failure 400 "Cannot read properties of null (reading 'swapTransaction')",
     [swap_call sample_config
        (swap_payload "9xQeWvG816bUx9EPjHmaT23yvVM2ZWbrrpZb9PusVFin"
           [("outAmount", VStr "987")] true true true 0)]).
Proof.
  exact (swap_null_payload sample_config swap_body (answers (Responds 200 (Some VNull)))
           "9xQeWvG816bUx9EPjHmaT23yvVM2ZWbrrpZb9PusVFin"
           [("outAmount", VStr "987")] true true true 0 200
           eq_refl ltac:(vm_compute; lia) eq_refl eq_refl eq_refl eq_refl eq_refl
           eq_refl eq_refl).
Defined.

Lemma non_success_text_witness :
  exists e,
    fetchJSON tokens_call (answers (Responds 500 (Some (VObj [("error", VArr [])]))))
    = (Throw e, [tokens_call]) /\
    error_text e <> "".
Proof.
  destruct (non_success_text tokens_call
              (answers (Responds 500 (Some (VObj [("error", VArr [])]))))
              500 (Some (VObj [("error", VArr [])])) eq_refl eq_refl)
    as (e & Hrun & _ & Hne & _).
  exists e. split; assumption.
Defined.

Lemma refused_body_answer_witness :
  app sample_config ∅
    {| req_method := POST; req_path := "/api/swap"; req_origin := None;
       req_ip := "198.51.100.7"; req_time := 0;
       req_body := Throw (mk_error "PayloadTooLargeError" "request entity too large") |}
    (answers TimesOut)
  = (failure 500 "Internal server error", ∅, []).
Proof.
  apply (proj1 (refused_body_answer sample_config ∅
                  {| req_method := POST; req_path := "/api/swap"; req_origin := None;
                     req_ip := "198.51.100.7"; req_time := 0;
                     req_body := Throw (mk_error "PayloadTooLargeError"
                                                 "request entity too large") |}
                  (answers TimesOut)
                  (mk_error "PayloadTooLargeError" "request entity too large") eq_refl)).
  reflexivity.
Defined.


Lemma limiter_entry_changes_witness :
  req_ip (api_request POST "/api/quote" None 0 (quote_body "5")) = "198.51.100.7" /\
  reaches_limiter sample_config (api_request POST "/api/quote" None 0 (quote_body "5"))
  = true.
Proof.
  apply (limiter_entry_changes sample_config ∅ _ (answers TimesOut)).
  vm_compute. discriminate.
Defined.


Lemma forbidden_only_by_cors_witness :
  (exists o, Some "null" = Some o /\ o <> "" /\ ~ In o (allowedOrigins sample_config)) \/
  (exists err, @Normal jsval (VObj []) = Throw err /\
               includes "CORS" (Error_toString err) = true).
Proof.
  apply (forbidden_only_by_cors sample_config ∅
           (api_request GET "/health" (Some "null") 0 (VObj [])) (answers TimesOut)).
  reflexivity.
Defined.

Lemma too_many_only_over_limit_witness :
  reaches_limiter sample_config (api_request GET "/api/tokens" None 1000 (VObj [])) = true /\
  exists h r,
    ({["198.51.100.7" := (120, 60000)]} : gmap string (Z * Z)) !! "198.51.100.7"
    = Some (h, r) /\ 1000 < r /\ 120 <= h.
Proof.
  apply (too_many_only_over_limit sample_config {["198.51.100.7" := (120, 60000)]}
           (api_request GET "/api/tokens" None 1000 (VObj [])) (answers TimesOut)).
  reflexivity.
Defined.

Lemma api_routes_behind_filters_witness :
  app sample_config ∅
    (api_request POST "/api/quote" (Some "https://zk-chan.fun") 0 (quote_body "5"))
    (answers (Responds 200 (Some (VObj [("outAmount", VStr "4")]))))
  = ({| status := 200;
        body := Json (VObj [("ok", VBool true);
                            ("quote", VObj [("outAmount", VStr "4")])]) |},
     {["198.51.100.7" := (1, 60000)]},
     [quote_call sample_config SOL USDC "5" "50" "false"]).
Proof.
  exact (proj1 (proj2 (api_routes_behind_filters sample_config ∅
           (api_request POST "/api/quote" (Some "https://zk-chan.fun") 0 (quote_body "5"))
           (answers (Responds 200 (Some (VObj [("outAmount", VStr "4")]))))
           (quote_body "5") eq_refl eq_refl eq_refl)) eq_refl eq_refl).
Defined.
